(** * NextStop: a shallow embedding of [app.py]

    The Flask application is modelled handler by handler.  Python values
    that cross the handlers (form fields, JSON bodies, session entries,
    weather dictionaries) are values of [pyval]; the session is a finite
    map from keys to such values; the user table is the list of its rows in
    insertion order.  Everything the handlers obtain from outside the
    process (the weather provider, the text-generation service, the salt of
    the password hash, the clock) is read from a [World] of oracles indexed
    by the trace of the outbound interactions made so far, and each such
    interaction is appended to that trace. *)

From Stdlib Require Import ZArith Ascii String List Floats.
From stdpp Require Import base option list strings gmap.

Local Open Scope Z_scope.
Local Open Scope string_scope.
Local Open Scope list_scope.

(** ** Python values *)

#[warnings="-register-all"]
Inductive pyval : Type :=
  | PNone
  | PBool (b : bool)
  | PInt (n : Z)
  | PFloat (f : float)
  | PStr (s : string)
  | PList (items : list pyval)
  | PDict (items : list (string * pyval)).

(** An exception is carried as its class name and the text [str(e)]. *)
Record PyExn : Type := mkExn { exn_class : string; exn_str : string }.

(** [bool(v)], as used by [not v] and [if v]. *)
Definition truthy (v : pyval) : bool :=
  match v with
  | PNone => false
  | PBool b => b
  | PInt n => negb (Z.eqb n 0)
  | PFloat f => negb (PrimFloat.eqb f 0%float)
  | PStr s => negb (String.eqb s EmptyString)
  | PList l => match l with [] => false | _ => true end
  | PDict l => match l with [] => false | _ => true end
  end.

Definition type_name (v : pyval) : string :=
  match v with
  | PNone => "NoneType"
  | PBool _ => "bool"
  | PInt _ => "int"
  | PFloat _ => "float"
  | PStr _ => "str"
  | PList _ => "list"
  | PDict _ => "dict"
  end.

(** The value of [os.getenv] or of [form.get]: a string or [None]. *)
Definition of_opt (o : option string) : pyval :=
  match o with
  | Some s => PStr s
  | None => PNone
  end.

(** A dictionary keeps one value per key; the first binding of a key in the
    item list is the one in force. *)
Fixpoint assoc {A : Type} (k : string) (l : list (string * A)) : option A :=
  match l with
  | [] => None
  | (k', v) :: rest => if String.eqb k k' then Some v else assoc k rest
  end.

(** ** Strings *)

Definition ascii_upper (c : ascii) : ascii :=
  let n := N_of_ascii c in
  if ((97 <=? n) && (n <=? 122))%N then ascii_of_N (n - 32) else c.

Definition ascii_lower (c : ascii) : ascii :=
  let n := N_of_ascii c in
  if ((65 <=? n) && (n <=? 90))%N then ascii_of_N (n + 32) else c.

Fixpoint str_lower (s : string) : string :=
  match s with
  | EmptyString => EmptyString
  | String c rest => String (ascii_lower c) (str_lower rest)
  end.

(** Capitalisation of an ASCII text: first character upper-cased, the
    others lower-cased.  Python's [str.capitalize] follows Unicode and is a
    function of the [World] below; this one is what the concrete worlds
    used to exercise the handlers put in its place, and it is what Python
    computes on ASCII texts only. *)
Definition ascii_capitalize (s : string) : string :=
  match s with
  | EmptyString => EmptyString
  | String c rest => String (ascii_upper c) (str_lower rest)
  end.

(** ** Outcomes, traces and the outside world *)

Inductive Outcome (A : Type) : Type :=
  | Ok (a : A)
  | Raise (e : PyExn).
Arguments Ok {A} a.
Arguments Raise {A} e.

(** Outbound interactions, in the order they are made. *)
Inductive Event : Type :=
  | EvHttpGet (url : string)
  | EvGenerate (model prompt : string)
  | EvSalt
  | EvNow.

(** What [requests.get] hands back: the status and what [response.json()]
    evaluates to (the decoded body, or the exception it raises). *)
Record HttpResponse : Type := mkHttp {
  status_code : Z;
  json : Outcome pyval
}.

(** What [generate_content] hands back: evaluating [response.text] gives
    the text or raises. *)
Record GenResponse : Type := mkGen {
  text : Outcome string
}.

Record World : Type := mkWorld {
  OPENWEATHER_API_KEY : option string;
  requests_get : list Event -> string -> Outcome HttpResponse;
  generate_content : list Event -> string -> string -> Outcome GenResponse;
  gen_salt : list Event -> string;
  datetime_now : list Event -> pyval;
  (* werkzeug.security, as functions of (method, salt, password) and of
     (stored hash, password) *)
  generate_password_hash : string -> string -> string -> string;
  check_password_hash : string -> string -> bool;
  (* the text Python gives a value that is neither a string, None nor a
     boolean when it is formatted *)
  py_repr : pyval -> string;
  (* str.capitalize, which follows Unicode's case mappings *)
  py_capitalize : string -> string
}.

(** ** Application state *)

Record User : Type := mkUser {
  id : Z;
  name : string;
  email : string;
  password : string
}.

Record State : Type := mkState {
  db : list User;
  session : gmap string pyval;
  trace : list Event
}.

Definition with_session (f : gmap string pyval -> gmap string pyval)
    (st : State) : State :=
  {| db := db st; session := f (session st); trace := trace st |}.

Definition with_trace (ev : Event) (st : State) : State :=
  {| db := db st; session := session st; trace := trace st ++ [ev] |}.

Definition with_db (d : list User) (st : State) : State :=
  {| db := d; session := session st; trace := trace st |}.

(** ** The handler monad: state passing with exceptions *)

Definition M (A : Type) : Type := State -> Outcome A * State.

Definition ret {A : Type} (a : A) : M A := fun st => (Ok a, st).

Definition raise {A : Type} (e : PyExn) : M A := fun st => (Raise e, st).

Definition bind {A B : Type} (c : M A) (k : A -> M B) : M B :=
  fun st =>
    match c st with
    | (Ok a, st') => k a st'
    | (Raise e, st') => (Raise e, st')
    end.

(** [try: c except Exception as e: h e] *)
Definition try_except {A : Type} (c : M A) (h : PyExn -> M A) : M A :=
  fun st =>
    match c st with
    | (Ok a, st') => (Ok a, st')
    | (Raise e, st') => h e st'
    end.

Definition lift {A : Type} (o : Outcome A) : M A := fun st => (o, st).

(** [M] is a monad in stdpp's sense, which gives the [x ← c; k] and
    [c;; k] notations. *)
#[global] Instance M_ret : MRet M := @ret.
#[global] Instance M_bind : MBind M := fun A B k c => bind c k.

Definition AttributeError (v : pyval) (attr : string) : PyExn :=
  mkExn "AttributeError"
    ("'" +:+ type_name v +:+ "' object has no attribute '" +:+ attr +:+ "'").

Definition not_subscriptable (v : pyval) : PyExn :=
  mkExn "TypeError" ("'" +:+ type_name v +:+ "' object is not subscriptable").

(** [v[k]] for a string key [k]. *)
Definition getitem (v : pyval) (k : string) : M pyval :=
  match v with
  | PDict items =>
      match assoc k items with
      | Some x => ret x
      | None => raise (mkExn "KeyError" ("'" +:+ k +:+ "'"))
      end
  | PList _ =>
      raise (mkExn "TypeError" "list indices must be integers or slices, not str")
  | PStr _ =>
      raise (mkExn "TypeError" "string indices must be integers, not 'str'")
  | _ => raise (not_subscriptable v)
  end.

(** [v[0]] *)
Definition getitem0 (v : pyval) : M pyval :=
  match v with
  | PList items =>
      match items with
      | x :: _ => ret x
      | [] => raise (mkExn "IndexError" "list index out of range")
      end
  | PDict _ => raise (mkExn "KeyError" "0")
  | PStr s =>
      match s with
      | String c _ => ret (PStr (String c EmptyString))
      | EmptyString => raise (mkExn "IndexError" "string index out of range")
      end
  | _ => raise (not_subscriptable v)
  end.

(** [v.get(k, dflt)] *)
Definition dict_get (v : pyval) (k : string) (dflt : pyval) : M pyval :=
  match v with
  | PDict items => ret (default dflt (assoc k items))
  | _ => raise (AttributeError v "get")
  end.

Section App.

Variable W : World.

(** The text of a value inside an f-string. *)
Definition py_str (v : pyval) : string :=
  match v with
  | PStr s => s
  | PNone => "None"
  | PBool true => "True"
  | PBool false => "False"
  | _ => py_repr W v
  end.

(** [v.capitalize()] *)
Definition str_capitalize (v : pyval) : M pyval :=
  match v with
  | PStr s => ret (PStr (py_capitalize W s))
  | _ => raise (AttributeError v "capitalize")
  end.

(** [requests.get(url)]: one outbound call, answered by the world. *)
Definition http_get (url : string) : M HttpResponse :=
  fun st => (requests_get W (trace st) url, with_trace (EvHttpGet url) st).

(** ** Weather lookup *)

(** The f-string of [get_weather_data]. *)
Definition weather_url (city : pyval) : string :=
  "https://api.openweathermap.org/data/2.5/weather?q=" +:+ py_str city
  +:+ "&units=metric&appid=" +:+ py_str (of_opt (OPENWEATHER_API_KEY W)).

(** The body of the [try] block of [get_weather_data]. *)
Definition weather_try (city : pyval) : M pyval :=
  let url := weather_url city in
  response ← http_get url;
  weather_data ← lift (json response);
  if negb (Z.eqb (status_code response) 200) then
    message ← dict_get weather_data "message" (PStr "Unknown error");
    ret (PDict [("error", PStr ("API Error: " +:+ py_str message))])
  else
    location ← str_capitalize city;
    w ← getitem weather_data "weather";
    w0 ← getitem0 w;
    description ← getitem w0 "description";
    m1 ← getitem weather_data "main";
    temperature ← getitem m1 "temp";
    m2 ← getitem weather_data "main";
    temp_min ← getitem m2 "temp_min";
    m3 ← getitem weather_data "main";
    temp_max ← getitem m3 "temp_max";
    m4 ← getitem weather_data "main";
    humidity ← getitem m4 "humidity";
    wd ← getitem weather_data "wind";
    wind_speed ← getitem wd "speed";
    w' ← getitem weather_data "weather";
    w0' ← getitem0 w';
    icon ← getitem w0' "icon";
    ret (PDict [
      ("location", location);
      ("description", description);
      ("temperature", temperature);
      ("temp_min", temp_min);
      ("temp_max", temp_max);
      ("humidity", humidity);
      ("wind_speed", wind_speed);
      ("icon", PStr ("http://openweathermap.org/img/w/" +:+ py_str icon +:+ ".png"))
    ]).

Definition get_weather_data (city : pyval) : M pyval :=
  if negb (truthy (of_opt (OPENWEATHER_API_KEY W))) then
    ret (PDict [("error", PStr "Missing API Key")])
  else
    try_except (weather_try city)
      (fun e => ret (PDict [("error", PStr (exn_str e))])).

(** ** Requests and responses *)

Inductive Method : Type := GET | POST.

(** [request.form]: the submitted fields, [get] returning the first value
    of a field or [None]. *)
Definition Form : Type := list (string * string).

Definition form_get (form : Form) (field : string) : option string :=
  assoc field form.

(** What a handler returns.  [Redirect] carries the endpoint given to
    [url_for].  The templates are not part of the handlers and a rendered
    page is carried as the template's name with its context. *)
Inductive Response : Type :=
  | Render (template : string) (context : list (string * pyval))
  | Redirect (endpoint : string)
  | Json (body : pyval) (status : Z)
  | Html (body : string).

(** ** Session and store primitives *)

Definition get_session : M (gmap string pyval) :=
  fun st => (Ok (session st), st).

Definition session_set (key : string) (v : pyval) : M unit :=
  fun st => (Ok tt, with_session (insert key v) st).

Definition session_clear : M unit :=
  fun st => (Ok tt, with_session (fun _ => ∅) st).

Definition flashes_of (s : gmap string pyval) : list pyval :=
  match s !! "_flashes" with
  | Some (PList l) => l
  | _ => []
  end.

(** Flask's [flash(message, category)] appends the pair to the list kept in
    the session under [_flashes]. *)
Definition flash (message category : string) : M unit :=
  fun st =>
    (Ok tt,
     with_session
       (fun s => <["_flashes" :=
                    PList (flashes_of s ++ [PList [PStr category; PStr message]])]> s)
       st).

(** [datetime.now()] *)
Definition now : M pyval :=
  fun st => (Ok (datetime_now W (trace st)), with_trace EvNow st).

(** [User.query.filter_by(email=email).first()]; no row has a null email,
    so a missing field finds nothing. *)
Definition query_first_by_email (rows : list User) (e : option string)
    : option User :=
  match e with
  | Some e => List.find (fun u => String.eqb (email u) e) rows
  | None => None
  end.

Definition get_db : M (list User) := fun st => (Ok (db st), st).

(** The integer primary key the table gives a new row. *)
Definition next_id (rows : list User) : Z :=
  1 + fold_right Z.max 0 (map id rows).

(** [db.session.add(User(...))] followed by [db.session.commit()]: the
    columns are declared [nullable=False] and the email [unique=True], so a
    missing name or email, or an email the table already has, makes the
    commit fail and nothing is stored. *)
Definition db_add_user (n e : option string) (pwhash : string) : M unit :=
  match n, e with
  | Some n, Some e =>
      fun st =>
        match query_first_by_email (db st) (Some e) with
        | Some _ =>
            (Raise (mkExn "IntegrityError" "UNIQUE constraint failed: user.email"), st)
        | None =>
            (Ok tt, with_db (db st ++ [mkUser (next_id (db st)) n e pwhash]) st)
        end
  | None, _ =>
      raise (mkExn "IntegrityError" "NOT NULL constraint failed: user.name")
  | _, None =>
      raise (mkExn "IntegrityError" "NOT NULL constraint failed: user.email")
  end.

(** [generate_password_hash(password, method=...)]: werkzeug draws a salt
    and then encodes the password, which [None] does not support. *)
Definition hash_password (pw : option string) (method : string) : M string :=
  fun st =>
    let st' := with_trace EvSalt st in
    match pw with
    | Some p => (Ok (generate_password_hash W method (gen_salt W (trace st)) p), st')
    | None => (Raise (AttributeError PNone "encode"), st')
    end.

(** [check_password_hash(pwhash, password)] *)
Definition verify_password (pwhash : string) (pw : option string) : M bool :=
  match pw with
  | Some p => ret (check_password_hash W pwhash p)
  | None => raise (AttributeError PNone "encode")
  end.

(** [GenerativeModel(model).generate_content(prompt)] *)
Definition genai_generate (model prompt : string) : M GenResponse :=
  fun st =>
    (generate_content W (trace st) model prompt,
     with_trace (EvGenerate model prompt) st).

(** ** Routes *)

Definition home : M Response := ret (Render "homepage.html" []).

Definition index : M Response := ret (Render "index.html" []).

Definition dashboard : M Response :=
  s ← get_session;
  match s !! "user_id" with
  | None =>
      flash "Please login to access your dashboard." "warning";;
      ret (Redirect "login")
  | Some _ =>
      let travel_data := default (PDict []) (s !! "travel_data") in
      t ← now;
      ret (Render "dashboard.html" [("now", t); ("travel_data", travel_data)])
  end.

Definition about : M Response :=
  t ← now; ret (Render "about.html" [("now", t)]).

Definition contact : M Response :=
  t ← now; ret (Render "contact.html" [("now", t)]).

Definition login (method : Method) (form : Form) : M Response :=
  match method with
  | POST =>
      let email := form_get form "email" in
      rows ← get_db;
      match query_first_by_email rows email with
      | Some user =>
          ok ← verify_password (password user) (form_get form "password");
          if (ok : bool) then
            session_set "user_id" (PInt (id user));;
            session_set "user_name" (PStr (name user));;
            flash ("Welcome, " +:+ name user +:+ "!") "success";;
            ret (Redirect "dashboard")
          else
            flash "Invalid email or password!" "danger";;
            ret (Render "login.html" [])
      | None =>
          flash "Invalid email or password!" "danger";;
          ret (Render "login.html" [])
      end
  | GET => ret (Render "login.html" [])
  end.

Definition register (method : Method) (form : Form) : M Response :=
  match method with
  | POST =>
      let name := form_get form "name" in
      let email := form_get form "email" in
      let password := form_get form "password" in
      let confirm_password := form_get form "password2" in
      if negb (bool_decide (password = confirm_password)) then
        flash "Passwords do not match!" "danger";;
        ret (Redirect "register")
      else
        hashed_password ← hash_password password "pbkdf2:sha256";
        rows ← get_db;
        match query_first_by_email rows email with
        | Some _ =>
            flash "Email already registered!" "danger";;
            ret (Redirect "register")
        | None =>
            db_add_user name email hashed_password;;
            flash "Registration successful! You can now log in." "success";;
            ret (Redirect "login")
        end
  | GET => ret (Render "register.html" [])
  end.

Definition logout : M Response :=
  session_clear;;
  flash "You have been logged out!" "info";;
  ret (Redirect "home").

Definition nl : string := String (ascii_of_nat 10) EmptyString.

(** The f-string of [generate_itinerary]. *)
Definition itinerary_prompt (destination start_date end_date : pyval) : string :=
  nl +:+ "    Generate a structured, day-wise travel itinerary for "
     +:+ py_str destination +:+ " from " +:+ py_str start_date
     +:+ " to " +:+ py_str end_date +:+ "." +:+ nl
  +:+ "    " +:+ nl
  +:+ "    ## Formatting:" +:+ nl
  +:+ "    - Each day should start with **Day X: [Date] - [Theme]**" +:+ nl
  +:+ "    - Use **bulleted points (-)** for activities." +:+ nl
  +:+ "    - Ensure clear separation between days." +:+ nl
  +:+ nl
  +:+ "    Example:" +:+ nl
  +:+ "    **Day 1: Exploring " +:+ py_str destination +:+ "**" +:+ nl
  +:+ "    - 09:00 AM: Arrive and check-in at the hotel." +:+ nl
  +:+ "    - 10:00 AM: Visit the historic city center." +:+ nl
  +:+ "    - 12:00 PM: Lunch at a famous local restaurant." +:+ nl
  +:+ "    - 02:00 PM: Explore museums and cultural sites." +:+ nl
  +:+ "    - 07:00 PM: Dinner at a waterfront restaurant." +:+ nl
  +:+ "    ".

(** The dictionary stored under [travel_data]. *)
Definition travel_bundle (destination start_date end_date : pyval)
    (itinerary : string) (weather_data : pyval) : pyval :=
  PDict [
    ("destination", destination);
    ("start_date", start_date);
    ("end_date", end_date);
    ("itinerary", PStr itinerary);
    ("weather", weather_data)
  ].

Definition generate_itinerary (form : Form) : M Response :=
  s ← get_session;
  match s !! "user_id" with
  | None =>
      flash "Please login to generate an itinerary." "warning";;
      ret (Redirect "login")
  | Some _ =>
      let destination := of_opt (form_get form "destination") in
      let start_date := of_opt (form_get form "startDate") in
      let end_date := of_opt (form_get form "endDate") in
      let prompt := itinerary_prompt destination start_date end_date in
      response ← genai_generate "gemini-1.5-pro" prompt;
      itinerary ← lift (text response);
      weather_data ← get_weather_data destination;
      session_set "travel_data"
        (travel_bundle destination start_date end_date itinerary weather_data);;
      ret (Redirect "dashboard")
  end.

(** [request_json] is what evaluating [request.json] gives: the decoded
    body, or the exception Flask raises for a body that is not JSON. *)
Definition get_weather (request_json : Outcome pyval) : M Response :=
  data ← lift request_json;
  city ← dict_get data "city" (PStr EmptyString);
  if negb (truthy city) then
    ret (Json (PDict [("error", PStr "City not provided")]) 400)
  else
    weather_data ← get_weather_data city;
    ret (Json weather_data 200).

Definition blog : M Response := ret (Html "<h1>Blog Page Coming Soon!</h1>").

Definition trip_planner : M Response :=
  ret (Html "<h1>Trip Planner Page Coming Soon!</h1>").

Definition deals : M Response := ret (Html "<h1>Deals Page Coming Soon!</h1>").

(** ** The application as a transition system *)

Inductive Request : Type :=
  | ReqHome
  | ReqIndex
  | ReqDashboard
  | ReqAbout
  | ReqContact
  | ReqLogin (method : Method) (form : Form)
  | ReqRegister (method : Method) (form : Form)
  | ReqLogout
  | ReqGenerateItinerary (form : Form)
  | ReqGetWeather (request_json : Outcome pyval)
  | ReqBlog
  | ReqTripPlanner
  | ReqDeals.

Definition handle (r : Request) : M Response :=
  match r with
  | ReqHome => home
  | ReqIndex => index
  | ReqDashboard => dashboard
  | ReqAbout => about
  | ReqContact => contact
  | ReqLogin m f => login m f
  | ReqRegister m f => register m f
  | ReqLogout => logout
  | ReqGenerateItinerary f => generate_itinerary f
  | ReqGetWeather j => get_weather j
  | ReqBlog => blog
  | ReqTripPlanner => trip_planner
  | ReqDeals => deals
  end.

(** The state after serving the requests in order; a request that raises
    leaves the state as it was when the exception left the handler. *)
Fixpoint run (st : State) (reqs : list Request) : State :=
  match reqs with
  | [] => st
  | r :: rest => run (snd (handle r st)) rest
  end.

End App.

(** ** Shapes of the weather dictionary *)

Definition is_error_record (v : pyval) : Prop :=
  exists msg, v = PDict [("error", PStr msg)].

Definition is_weather_record (v : pyval) : Prop :=
  exists location description temperature temp_min temp_max humidity
         wind_speed icon,
    v = PDict [
      ("location", PStr location);
      ("description", description);
      ("temperature", temperature);
      ("temp_min", temp_min);
      ("temp_max", temp_max);
      ("humidity", humidity);
      ("wind_speed", wind_speed);
      ("icon", PStr icon)
    ].

(** ** Concrete worlds and states used to exercise the handlers *)

Definition st0 : State := mkState [] ∅ [].

(** No weather key configured; the text service answers with a fixed
    itinerary; the hash keeps method, salt and password apart with [$]. *)
Definition quiet_world : World := {|
  OPENWEATHER_API_KEY := None;
  requests_get := fun _ _ => Raise (mkExn "ConnectionError" "unreachable");
  generate_content := fun _ _ _ => Ok (mkGen (Ok "**Day 1: Exploring Paris**"));
  gen_salt := fun _ => "salt";
  datetime_now := fun _ => PStr "2025-06-01 09:00:00";
  generate_password_hash := fun method salt pw => method +:+ "$" +:+ salt +:+ "$" +:+ pw;
  check_password_hash := fun pwhash pw => String.eqb pwhash ("pbkdf2:sha256$salt$" +:+ pw);
  py_repr := fun _ => "<value>";
  py_capitalize := ascii_capitalize
|}.

(** A key is configured and the provider's gateway answers 502 with a body
    that is not JSON. *)
Definition bad_gateway_world : World := {|
  OPENWEATHER_API_KEY := Some "k";
  requests_get := fun _ _ =>
    Ok (mkHttp 502
          (Raise (mkExn "JSONDecodeError" "Expecting value: line 1 column 1 (char 0)")));
  generate_content := fun _ _ _ => Raise (mkExn "ServiceUnavailable" "503 overloaded");
  gen_salt := fun _ => "salt";
  datetime_now := fun _ => PStr "2025-06-01 09:00:00";
  generate_password_hash := fun method salt pw => method +:+ "$" +:+ salt +:+ "$" +:+ pw;
  check_password_hash := fun pwhash pw => String.eqb pwhash ("pbkdf2:sha256$salt$" +:+ pw);
  py_repr := fun _ => "<value>";
  py_capitalize := ascii_capitalize
|}.

(** A key is configured and the provider does not know the city. *)
Definition unknown_city_world : World := {|
  OPENWEATHER_API_KEY := Some "k";
  requests_get := fun _ _ =>
    Ok (mkHttp 404
          (Ok (PDict [("cod", PStr "404"); ("message", PStr "city not found")])));
  generate_content := fun _ _ _ => Ok (mkGen (Ok "**Day 1: Exploring Paris**"));
  gen_salt := fun _ => "salt";
  datetime_now := fun _ => PStr "2025-06-01 09:00:00";
  generate_password_hash := fun method salt pw => method +:+ "$" +:+ salt +:+ "$" +:+ pw;
  check_password_hash := fun pwhash pw => String.eqb pwhash ("pbkdf2:sha256$salt$" +:+ pw);
  py_repr := fun _ => "<value>";
  py_capitalize := ascii_capitalize
|}.

(** A key is configured and the provider answers with current conditions. *)
Definition sunny_world : World := {|
  OPENWEATHER_API_KEY := Some "k";
  requests_get := fun _ _ =>
    Ok (mkHttp 200
          (Ok (PDict [
             ("weather", PList [PDict [("description", PStr "clear sky");
                                       ("icon", PStr "01d")]]);
             ("main", PDict [("temp", PFloat 21.5%float);
                             ("temp_min", PFloat 19%float);
                             ("temp_max", PFloat 24%float);
                             ("humidity", PInt 40)]);
             ("wind", PDict [("speed", PFloat 3.5%float)])])));
  generate_content := fun _ _ _ => Ok (mkGen (Ok "**Day 1: Exploring Paris**"));
  gen_salt := fun _ => "salt";
  datetime_now := fun _ => PStr "2025-06-01 09:00:00";
  generate_password_hash := fun method salt pw => method +:+ "$" +:+ salt +:+ "$" +:+ pw;
  check_password_hash := fun pwhash pw => String.eqb pwhash ("pbkdf2:sha256$salt$" +:+ pw);
  py_repr := fun _ => "<value>";
  py_capitalize := ascii_capitalize
|}.

(** ** Frame conditions

    [keeps f c]: the computation [c] leaves the observation [f] of the
    state as it found it, whether it returns or raises. *)

Definition keeps {X A : Type} (f : State -> X) (c : M A) : Prop :=
  forall st, f (snd (c st)) = f st.

(** The observation of the session under one key. *)
Definition session_at (key : string) (st : State) : option pyval :=
  session st !! key.

(** Every stored password is a hash werkzeug produced with the method the
    application asks for, and differs from the password it was made of. *)
Definition hashed_store (W : World) (rows : list User) : Prop :=
  Forall (fun u => exists salt pw,
            password u = generate_password_hash W "pbkdf2:sha256" salt pw /\
            password u <> pw) rows.

(** The session [login] leaves on success. *)
Definition login_identity (u : User) (s : gmap string pyval) : gmap string pyval :=
  <["_flashes" :=
      PList (flashes_of (<["user_name" := PStr (name u)]> (<["user_id" := PInt (id u)]> s))
             ++ [PList [PStr "success"; PStr ("Welcome, " +:+ name u +:+ "!")]])]>
    (<["user_name" := PStr (name u)]> (<["user_id" := PInt (id u)]> s)).

(** ** Observations used by the properties of the handlers *)

(** The identity in the session, when there is one, is the id and the name
    of one row of the user table. *)
Definition identity_of_stored_user (st : State) : Prop :=
  match session st !! "user_id", session st !! "user_name" with
  | None, None => True
  | Some i, Some n =>
      exists u, In u (db st) /\ i = PInt (id u) /\ n = PStr (name u)
  | _, _ => False
  end.

(** The calls to the text-generation service recorded in a trace. *)
Definition is_generate (ev : Event) : bool :=
  match ev with
  | EvGenerate _ _ => true
  | _ => false
  end.

Definition generate_calls (st : State) : list Event :=
  List.filter is_generate (trace st).

(** * Properties *)

(** ** Reasoning about handler computations *)

Lemma bind_Ok_inv {A B : Type} (c : M A) (k : A -> M B) st b st' :
  (c ≫= k) st = (Ok b, st') ->
  exists a st1, c st = (Ok a, st1) /\ k a st1 = (Ok b, st').
Proof.
  unfold mbind, M_bind, bind.
  destruct (c st) as [[a | e] st1]; [eauto | discriminate].
Qed.

Ltac bind_inv H :=
  let a := fresh "a" in
  let s := fresh "s" in
  let Hc := fresh "Hc" in
  apply bind_Ok_inv in H; destruct H as (a & s & Hc & H).

Lemma str_capitalize_Ok W v st x st' :
  str_capitalize W v st = (Ok x, st') -> exists s, x = PStr s.
Proof.
  destruct v; simpl; try discriminate.
  unfold ret. intros [= <- _]. eauto.
Qed.

(** ** Weather lookup *)

Section WeatherFacts.

Variable W : World.

(** Whatever the [try] block returns is an error record or a full weather
    record. *)
Lemma weather_try_shape city st v st' :
  weather_try W city st = (Ok v, st') ->
  is_error_record v \/ is_weather_record v.
Proof.
  unfold weather_try. intros H.
  bind_inv H. bind_inv H.
  destruct (negb (status_code a =? 200)%Z).
  - bind_inv H. unfold ret in H. injection H as <- _.
    left. eexists. reflexivity.
  - bind_inv H.
    apply str_capitalize_Ok in Hc1 as [loc ->].
    do 16 (bind_inv H).
    unfold ret in H. injection H as <- _.
    right. unfold is_weather_record. repeat eexists.
Qed.

(** [get_weather_data] always returns, and what it returns is an error
    record or a weather record. *)
Lemma get_weather_data_total city st :
  exists v st', get_weather_data W city st = (Ok v, st') /\
                (is_error_record v \/ is_weather_record v).
Proof.
  unfold get_weather_data.
  destruct (negb (truthy (of_opt (OPENWEATHER_API_KEY W)))).
  - eexists _, _. split; [reflexivity |]. left. eexists. reflexivity.
  - unfold try_except.
    destruct (weather_try W city st) as [[v | e] st'] eqn:Hbody.
    + eexists _, _. split; [reflexivity |]. eapply weather_try_shape, Hbody.
    + eexists _, _. split; [reflexivity |]. left. eexists. reflexivity.
Qed.

End WeatherFacts.

Example weather_sunny :
  fst (get_weather_data sunny_world (PStr "pARIS") st0)
  = Ok (PDict [("location", PStr "Paris");
               ("description", PStr "clear sky");
               ("temperature", PFloat 21.5%float);
               ("temp_min", PFloat 19%float);
               ("temp_max", PFloat 24%float);
               ("humidity", PInt 40);
               ("wind_speed", PFloat 3.5%float);
               ("icon", PStr "http://openweathermap.org/img/w/01d.png")]).
Proof. reflexivity. Qed.

Example weather_city_not_a_string :
  fst (get_weather_data sunny_world PNone st0)
  = Ok (PDict [("error",
                PStr "'NoneType' object has no attribute 'capitalize'")]).
Proof. reflexivity. Qed.

Example weather_unknown_city :
  fst (get_weather_data unknown_city_world (PStr "InvalidCityXYZ") st0)
  = Ok (PDict [("error", PStr "API Error: city not found")]).
Proof. reflexivity. Qed.

Example weather_bad_gateway :
  get_weather_data bad_gateway_world (PStr "Paris") st0
  = (Ok (PDict [("error", PStr "Expecting value: line 1 column 1 (char 0)")]),
     mkState [] ∅ [EvHttpGet
       "https://api.openweathermap.org/data/2.5/weather?q=Paris&units=metric&appid=k"]).
Proof. reflexivity. Qed.

(** What the lookup returns once the key is configured, by the provider's
    answer. *)
Lemma get_weather_data_with_key (W : World) (city : pyval) (st : State) :
  truthy (of_opt (OPENWEATHER_API_KEY W)) = true ->
  get_weather_data W city st =
  try_except (weather_try W city)
    (fun e => ret (PDict [("error", PStr (exn_str e))])) st.
Proof. unfold get_weather_data. intros ->. reflexivity. Qed.

(** ** Session handling *)

Lemma flashes_of_empty : flashes_of ∅ = [].
Proof. unfold flashes_of. rewrite lookup_empty. reflexivity. Qed.

(** ** Frame lemmas *)

Section Frame.

Context {X : Type} (f : State -> X).
Hypothesis f_trace : forall ev st, f (with_trace ev st) = f st.
Variable W : World.

Lemma keeps_ret {A} (a : A) : keeps f (ret a).
Proof. intros st. reflexivity. Qed.

Lemma keeps_raise {A} e : keeps f (@raise A e).
Proof. intros st. reflexivity. Qed.

Lemma keeps_lift {A} (o : Outcome A) : keeps f (lift o).
Proof. intros st. reflexivity. Qed.

Lemma keeps_bind {A B} (c : M A) (k : A -> M B) :
  keeps f c -> (forall a, keeps f (k a)) -> keeps f (c ≫= k).
Proof.
  intros Hc Hk st. unfold mbind, M_bind, bind.
  specialize (Hc st). destruct (c st) as [[a | e] st1]; simpl in *.
  - rewrite Hk. exact Hc.
  - exact Hc.
Qed.

Lemma keeps_try_except {A} (c : M A) (h : PyExn -> M A) :
  keeps f c -> (forall e, keeps f (h e)) -> keeps f (try_except c h).
Proof.
  intros Hc Hh st. unfold try_except.
  specialize (Hc st). destruct (c st) as [[a | e] st1]; simpl in *.
  - exact Hc.
  - rewrite Hh. exact Hc.
Qed.

Lemma keeps_getitem v k : keeps f (getitem v k).
Proof.
  intros st. destruct v; simpl; try reflexivity.
  destruct (assoc k items); reflexivity.
Qed.

Lemma keeps_getitem0 v : keeps f (getitem0 v).
Proof.
  intros st. destruct v as [| | | | s | l | l]; simpl; try reflexivity.
  - destruct s; reflexivity.
  - destruct l; reflexivity.
Qed.

Lemma keeps_dict_get v k d : keeps f (dict_get v k d).
Proof. intros st. destruct v; reflexivity. Qed.

Lemma keeps_str_capitalize v : keeps f (str_capitalize W v).
Proof. intros st. destruct v; reflexivity. Qed.

Lemma keeps_get_session : keeps f get_session.
Proof. intros st. reflexivity. Qed.

Lemma keeps_get_db : keeps f get_db.
Proof. intros st. reflexivity. Qed.

Lemma keeps_http_get url : keeps f (http_get W url).
Proof. intros st. apply f_trace. Qed.

Lemma keeps_now : keeps f (now W).
Proof. intros st. apply f_trace. Qed.

Lemma keeps_genai_generate model prompt : keeps f (genai_generate W model prompt).
Proof. intros st. apply f_trace. Qed.

Lemma keeps_hash_password pw method : keeps f (hash_password W pw method).
Proof. intros st. unfold hash_password. destruct pw; apply f_trace. Qed.

Lemma keeps_verify_password h pw : keeps f (verify_password W h pw).
Proof. intros st. destruct pw; reflexivity. Qed.

#[local] Hint Resolve keeps_ret keeps_raise keeps_lift keeps_getitem keeps_getitem0
  keeps_dict_get keeps_str_capitalize keeps_get_session keeps_get_db
  keeps_http_get keeps_now keeps_genai_generate keeps_hash_password
  keeps_verify_password : core.

Lemma keeps_weather_try city : keeps f (weather_try W city).
Proof.
  unfold weather_try.
  apply keeps_bind; [auto | intros response].
  apply keeps_bind; [auto | intros weather_data].
  destruct (negb (status_code response =? 200)%Z).
  - apply keeps_bind; auto.
  - repeat (apply keeps_bind; [auto | intro]). auto.
Qed.

Lemma keeps_get_weather_data city : keeps f (get_weather_data W city).
Proof.
  unfold get_weather_data.
  destruct (negb (truthy (of_opt (OPENWEATHER_API_KEY W)))); [auto |].
  apply keeps_try_except; [apply keeps_weather_try | auto].
Qed.

Lemma keeps_get_weather request_json : keeps f (get_weather W request_json).
Proof.
  unfold get_weather.
  apply keeps_bind; [auto | intros data].
  apply keeps_bind; [auto | intros city].
  destruct (negb (truthy city)); [auto |].
  apply keeps_bind; [apply keeps_get_weather_data | auto].
Qed.

End Frame.

(** ** What the handlers do to the user table *)

Lemma keeps_db_flash message category : keeps db (flash message category).
Proof. intros st. reflexivity. Qed.

Lemma keeps_db_session_set key v : keeps db (session_set key v).
Proof. intros st. reflexivity. Qed.

Lemma keeps_db_session_clear : keeps db session_clear.
Proof. intros st. reflexivity. Qed.

Lemma db_with_trace ev st : db (with_trace ev st) = db st.
Proof. reflexivity. Qed.

Ltac keeps_db :=
  repeat first
    [ apply keeps_bind; [| intro]
    | apply keeps_ret
    | apply keeps_get_session
    | apply keeps_get_db
    | apply keeps_now; exact db_with_trace
    | apply keeps_genai_generate; exact db_with_trace
    | apply keeps_get_weather_data; exact db_with_trace
    | apply keeps_get_weather; exact db_with_trace
    | apply keeps_verify_password
    | apply keeps_lift
    | apply keeps_db_flash
    | apply keeps_db_session_set
    | apply keeps_db_session_clear ].

Lemma keeps_db_dashboard W : keeps db (dashboard W).
Proof.
  unfold dashboard. apply keeps_bind; [keeps_db | intros s].
  destruct (s !! "user_id"); keeps_db.
Qed.

Lemma keeps_db_login W method form : keeps db (login W method form).
Proof.
  unfold login. destruct method; [keeps_db |].
  apply keeps_bind; [keeps_db | intros rows].
  destruct (query_first_by_email rows (form_get form "email")); [| keeps_db].
  apply keeps_bind; [keeps_db | intros [|]]; keeps_db.
Qed.

Lemma keeps_db_generate_itinerary W form : keeps db (generate_itinerary W form).
Proof.
  unfold generate_itinerary. apply keeps_bind; [keeps_db | intros s].
  destruct (s !! "user_id"); keeps_db.
Qed.

(** The row a successful registration adds. *)
Lemma register_effect_on_db W method form st :
  db (snd (register W method form st)) = db st \/
  exists n e pw,
    method = POST /\
    form_get form "name" = Some n /\
    form_get form "email" = Some e /\
    form_get form "password" = Some pw /\
    form_get form "password2" = Some pw /\
    query_first_by_email (db st) (Some e) = None /\
    fst (register W method form st) = Ok (Redirect "login") /\
    db (snd (register W method form st))
      = (db st ++ [mkUser (next_id (db st)) n e
                     (generate_password_hash W "pbkdf2:sha256"
                        (gen_salt W (trace st)) pw)])%list.
Proof.
  destruct method; [left; reflexivity |].
  unfold register.
  destruct (bool_decide (form_get form "password" = form_get form "password2"))
    eqn:Hsame; simpl; [| left; reflexivity].
  apply bool_decide_eq_true_1 in Hsame.
  unfold hash_password, get_db, db_add_user, flash, mbind, M_bind, bind, ret, raise.
  destruct (form_get form "password") as [pw |] eqn:Hpw; simpl;
    [| left; reflexivity].
  destruct (form_get form "email") as [e |] eqn:He; simpl.
  - destruct (find (fun u => (email u =? e)%string) (db st)) eqn:Hq; simpl;
      [left; reflexivity |].
    destruct (form_get form "name") as [n |] eqn:Hn; simpl;
      [| left; reflexivity].
    rewrite Hq. simpl. right. exists n, e, pw. auto 10.
  - destruct (form_get form "name"); left; reflexivity.
Qed.

Lemma handle_effect_on_db W r st :
  db (snd (handle W r st)) = db st \/
  exists form n e pw,
    r = ReqRegister POST form /\
    form_get form "name" = Some n /\
    form_get form "email" = Some e /\
    form_get form "password" = Some pw /\
    form_get form "password2" = Some pw /\
    query_first_by_email (db st) (Some e) = None /\
    fst (handle W r st) = Ok (Redirect "login") /\
    db (snd (handle W r st))
      = (db st ++ [mkUser (next_id (db st)) n e
                     (generate_password_hash W "pbkdf2:sha256"
                        (gen_salt W (trace st)) pw)])%list.
Proof.
  assert (Hkeeps : forall c : M Response, keeps db c -> db (snd (c st)) = db st)
    by (intros c Hc; apply Hc).
  destruct r as [ | | | | | m form | m form | | form | j | | | ];
    try (left; apply Hkeeps; simpl; first
      [ apply keeps_db_dashboard
      | apply keeps_db_login
      | apply keeps_db_generate_itinerary
      | apply keeps_get_weather; exact db_with_trace
      | unfold home, index, about, contact, logout, blog, trip_planner, deals;
        keeps_db; fail ]).
  simpl.
  destruct (register_effect_on_db W m form st) as [H | (n & e & pw & -> & H)].
  - left. exact H.
  - right. exists form, n, e, pw. split; [reflexivity | exact H].
Qed.

(** ** Registration with an email the table already has *)

Lemma find_snoc {A} (p : A -> bool) (l : list A) (x : A) :
  find p (l ++ [x])
  = match find p l with
    | Some y => Some y
    | None => if p x then Some x else None
    end.
Proof.
  induction l as [| y l IH]; simpl; [reflexivity |].
  destruct (p y); [reflexivity | exact IH].
Qed.

Lemma query_snoc_present rows u e :
  is_Some (query_first_by_email rows (Some e)) ->
  is_Some (query_first_by_email (rows ++ [u]) (Some e)).
Proof.
  simpl. rewrite find_snoc. intros [x ->]. eauto.
Qed.

Lemma query_None_not_In rows e :
  query_first_by_email rows (Some e) = None -> ~ In e (map email rows).
Proof.
  simpl. induction rows as [| u rows IH]; simpl; [tauto |].
  destruct (String.eqb_spec (email u) e) as [Heq | Hne]; [discriminate |].
  intros Hfind [Hin | Hin]; [congruence | exact (IH Hfind Hin)].
Qed.

Lemma query_Some_In rows e u :
  query_first_by_email rows (Some e) = Some u -> In u rows /\ email u = e.
Proof.
  simpl. intros Hfind. apply find_some in Hfind as [Hin Heq].
  apply String.eqb_eq in Heq. auto.
Qed.

Section Runs.

Variable W : World.

Lemma handle_keeps_email_present r st e :
  is_Some (query_first_by_email (db st) (Some e)) ->
  is_Some (query_first_by_email (db (snd (handle W r st))) (Some e)).
Proof.
  intros Hpresent.
  destruct (handle_effect_on_db W r st) as [-> | (form & n & e' & pw & _ & _ & _ & _ & _ & _ & _ & ->)].
  - exact Hpresent.
  - apply query_snoc_present, Hpresent.
Qed.

Lemma run_keeps_email_present reqs st e :
  is_Some (query_first_by_email (db st) (Some e)) ->
  is_Some (query_first_by_email (db (run W st reqs)) (Some e)).
Proof.
  revert st. induction reqs as [| r reqs IH]; intros st Hpresent; simpl.
  - exact Hpresent.
  - apply IH, handle_keeps_email_present, Hpresent.
Qed.

Lemma handle_keeps_unique_emails r st :
  NoDup (map email (db st)) -> NoDup (map email (db (snd (handle W r st)))).
Proof.
  intros Huniq.
  destruct (handle_effect_on_db W r st) as [-> | (form & n & e & pw & _ & _ & _ & _ & _ & Hfree & _ & ->)].
  - exact Huniq.
  - rewrite map_app. simpl.
    apply NoDup_app. split; [exact Huniq |]. split.
    + intros x Hx Hx'. apply list_elem_of_In in Hx.
      apply list_elem_of_singleton in Hx'. subst x.
      exact (query_None_not_In _ _ Hfree Hx).
    + apply NoDup_singleton.
Qed.

Lemma run_keeps_unique_emails reqs st :
  NoDup (map email (db st)) -> NoDup (map email (db (run W st reqs))).
Proof.
  revert st. induction reqs as [| r reqs IH]; intros st Huniq; simpl.
  - exact Huniq.
  - apply IH, handle_keeps_unique_emails, Huniq.
Qed.

(** A well-formed registration leaves its email in the table, whether it
    added the row or found the email taken. *)
Lemma register_leaves_email_present form st n e pw :
  form_get form "name" = Some n ->
  form_get form "email" = Some e ->
  form_get form "password" = Some pw ->
  form_get form "password2" = Some pw ->
  is_Some (query_first_by_email (db (snd (register W POST form st))) (Some e)).
Proof.
  intros Hn He Hpw Hpw2. unfold register.
  rewrite Hn, He, Hpw, Hpw2.
  rewrite bool_decide_eq_true_2 by reflexivity. simpl.
  unfold hash_password, get_db, db_add_user, flash, mbind, M_bind, bind, ret.
  simpl.
  destruct (find (fun u => (email u =? e)%string) (db st)) as [u |] eqn:Hq; simpl.
  - rewrite Hq. eauto.
  - rewrite Hq. simpl. rewrite find_snoc, Hq. simpl.
    rewrite String.eqb_refl. eauto.
Qed.

(** The conflict branch of [register]. *)
Lemma register_conflict form st e pw :
  form_get form "email" = Some e ->
  form_get form "password" = Some pw ->
  form_get form "password2" = Some pw ->
  is_Some (query_first_by_email (db st) (Some e)) ->
  register W POST form st
  = (Ok (Redirect "register"),
     with_session
       (fun s => <["_flashes" :=
          PList (flashes_of s ++ [PList [PStr "danger"; PStr "Email already registered!"]])]> s)
       (with_trace EvSalt st)).
Proof.
  intros He Hpw Hpw2 [u Hq]. unfold register.
  rewrite He, Hpw, Hpw2.
  rewrite bool_decide_eq_true_2 by reflexivity. simpl.
  unfold hash_password, get_db, flash, mbind, M_bind, bind, ret. simpl.
  simpl in Hq. rewrite Hq. reflexivity.
Qed.

End Runs.

(** ** Password storage and login *)

Lemma unique_email_query rows u :
  NoDup (map email rows) -> In u rows ->
  query_first_by_email rows (Some (email u)) = Some u.
Proof.
  simpl. induction rows as [| v rows IH]; simpl; [tauto |].
  intros Huniq [-> | Hin].
  - rewrite String.eqb_refl. reflexivity.
  - apply NoDup_cons in Huniq as [Hfresh Huniq].
    destruct (String.eqb_spec (email v) (email u)) as [Heq | Hne].
    + exfalso. apply Hfresh. rewrite Heq.
      apply list_elem_of_In, in_map, Hin.
    + apply IH; assumption.
Qed.

Section Login.

Variable W : World.

Lemma login_success form st pw u :
  form_get form "password" = Some pw ->
  query_first_by_email (db st) (form_get form "email") = Some u ->
  check_password_hash W (password u) pw = true ->
  login W POST form st
  = (Ok (Redirect "dashboard"), with_session (login_identity u) st).
Proof.
  intros Hpw Hq Hcheck.
  unfold login, get_db, verify_password, session_set, flash,
    mbind, M_bind, bind, ret. simpl.
  rewrite Hq, Hpw. simpl. rewrite Hcheck. reflexivity.
Qed.

Lemma login_failure form st pw :
  form_get form "password" = Some pw ->
  (forall u, query_first_by_email (db st) (form_get form "email") = Some u ->
             check_password_hash W (password u) pw = false) ->
  login W POST form st
  = (Ok (Render "login.html" []),
     with_session
       (fun s => <["_flashes" :=
          PList (flashes_of s ++ [PList [PStr "danger"; PStr "Invalid email or password!"]])]> s)
       st).
Proof.
  intros Hpw Hbad.
  unfold login, get_db, verify_password, session_set, flash,
    mbind, M_bind, bind, ret. simpl.
  destruct (query_first_by_email (db st) (form_get form "email")) as [u |];
    [| reflexivity].
  rewrite Hpw. simpl. rewrite (Hbad u eq_refl). reflexivity.
Qed.

Lemma handle_keeps_hashed_store r st :
  (forall salt pw, generate_password_hash W "pbkdf2:sha256" salt pw <> pw) ->
  hashed_store W (db st) -> hashed_store W (db (snd (handle W r st))).
Proof.
  intros Hne Hstore.
  destruct (handle_effect_on_db W r st)
    as [-> | (form & n & e & pw & _ & _ & _ & _ & _ & _ & _ & ->)];
    [exact Hstore |].
  apply Forall_app. split; [exact Hstore |].
  apply Forall_singleton. simpl. eauto.
Qed.

Lemma run_keeps_hashed_store reqs st :
  (forall salt pw, generate_password_hash W "pbkdf2:sha256" salt pw <> pw) ->
  hashed_store W (db st) -> hashed_store W (db (run W st reqs)).
Proof.
  intros Hne. revert st.
  induction reqs as [| r reqs IH]; intros st Hstore; simpl.
  - exact Hstore.
  - apply IH, handle_keeps_hashed_store; assumption.
Qed.

End Login.

(** ** The travel bundle of the session *)

Lemma session_at_with_trace key ev st :
  session_at key (with_trace ev st) = session_at key st.
Proof. reflexivity. Qed.

Lemma keeps_session_at_flash key message category :
  key <> "_flashes" -> keeps (session_at key) (flash message category).
Proof.
  intros Hne st. unfold session_at, flash. simpl.
  apply lookup_insert_ne. congruence.
Qed.

Lemma keeps_session_at_session_set key k v :
  key <> k -> keeps (session_at key) (session_set k v).
Proof.
  intros Hne st. unfold session_at, session_set. simpl.
  apply lookup_insert_ne. congruence.
Qed.

Lemma keeps_session_at_db_add_user key n e h :
  keeps (session_at key) (db_add_user n e h).
Proof.
  intros st. unfold db_add_user.
  destruct n, e; try reflexivity.
  destruct (query_first_by_email (db st) (Some s0)); reflexivity.
Qed.

Ltac keeps_travel_data :=
  repeat first
    [ apply keeps_ret
    | apply keeps_raise
    | apply keeps_lift
    | apply keeps_get_session
    | apply keeps_get_db
    | apply keeps_verify_password
    | apply keeps_now; exact (session_at_with_trace "travel_data")
    | apply keeps_hash_password; exact (session_at_with_trace "travel_data")
    | apply keeps_genai_generate; exact (session_at_with_trace "travel_data")
    | apply keeps_get_weather_data; exact (session_at_with_trace "travel_data")
    | apply keeps_get_weather; exact (session_at_with_trace "travel_data")
    | apply keeps_session_at_db_add_user
    | apply keeps_session_at_flash; discriminate
    | apply keeps_session_at_session_set; discriminate
    | apply keeps_bind; [| intro]
    | match goal with
      | |- keeps _ (match ?x with _ => _ end) => destruct x
      end ].

Section TravelData.

Variable W : World.

Lemma keeps_travel_data_dashboard : keeps (session_at "travel_data") (dashboard W).
Proof. unfold dashboard. keeps_travel_data. Qed.

Lemma keeps_travel_data_login method form :
  keeps (session_at "travel_data") (login W method form).
Proof. unfold login. keeps_travel_data. Qed.

Lemma keeps_travel_data_register method form :
  keeps (session_at "travel_data") (register W method form).
Proof. unfold register. keeps_travel_data. Qed.

Lemma logout_travel_data st : session_at "travel_data" (snd (logout st)) = None.
Proof.
  unfold session_at, logout, session_clear, flash, mbind, M_bind, bind, ret.
  simpl. rewrite lookup_insert_ne by discriminate. apply lookup_empty.
Qed.

(** The successful path of [generate_itinerary]. *)
Lemma generate_itinerary_success form st uid response itinerary :
  let destination := of_opt (form_get form "destination") in
  let start_date := of_opt (form_get form "startDate") in
  let end_date := of_opt (form_get form "endDate") in
  let prompt := itinerary_prompt W destination start_date end_date in
  session st !! "user_id" = Some uid ->
  generate_content W (trace st) "gemini-1.5-pro" prompt = Ok response ->
  text response = Ok itinerary ->
  exists weather_data st_w,
    get_weather_data W destination
      (with_trace (EvGenerate "gemini-1.5-pro" prompt) st) = (Ok weather_data, st_w) /\
    session st_w = session st /\
    generate_itinerary W form st
    = (Ok (Redirect "dashboard"),
       with_session
         (insert "travel_data"
            (travel_bundle destination start_date end_date itinerary weather_data))
         st_w).
Proof.
  intros destination start_date end_date prompt Huid Hgen Htext.
  destruct (get_weather_data_total W destination
              (with_trace (EvGenerate "gemini-1.5-pro" prompt) st))
    as (w & st_w & Hw & _).
  exists w, st_w. split; [exact Hw |]. split.
  - pose proof (keeps_get_weather_data session
                  (fun ev st => eq_refl) W destination
                  (with_trace (EvGenerate "gemini-1.5-pro" prompt) st)) as Hkeep.
    rewrite Hw in Hkeep. exact Hkeep.
  - unfold generate_itinerary, get_session, genai_generate, lift, session_set,
      mbind, M_bind, bind, ret. simpl. rewrite Huid.
    fold destination start_date end_date. fold prompt.
    rewrite Hgen, Htext, Hw. reflexivity.
Qed.

(** The failing path of [generate_itinerary]. *)
Lemma generate_itinerary_raises form st uid e :
  let prompt :=
    itinerary_prompt W (of_opt (form_get form "destination"))
      (of_opt (form_get form "startDate")) (of_opt (form_get form "endDate")) in
  session st !! "user_id" = Some uid ->
  generate_content W (trace st) "gemini-1.5-pro" prompt = Raise e \/
  (exists response,
     generate_content W (trace st) "gemini-1.5-pro" prompt = Ok response /\
     text response = Raise e) ->
  generate_itinerary W form st
    = (Raise e, with_trace (EvGenerate "gemini-1.5-pro" prompt) st).
Proof.
  intros prompt Huid Hfail.
  unfold generate_itinerary, get_session, genai_generate, lift,
    mbind, M_bind, bind, ret. simpl. rewrite Huid. fold prompt.
  destruct Hfail as [-> | (response & -> & Htext)].
  - reflexivity.
  - rewrite Htext. reflexivity.
Qed.

(** A generation request either succeeds, or leaves [travel_data] alone. *)
Lemma generate_itinerary_cases form st :
  fst (generate_itinerary W form st) = Ok (Redirect "dashboard") \/
  (fst (generate_itinerary W form st) <> Ok (Redirect "dashboard") /\
   session_at "travel_data" (snd (generate_itinerary W form st))
   = session_at "travel_data" st).
Proof.
  set (destination := of_opt (form_get form "destination")).
  set (start_date := of_opt (form_get form "startDate")).
  set (end_date := of_opt (form_get form "endDate")).
  set (prompt := itinerary_prompt W destination start_date end_date).
  destruct (session st !! "user_id") as [uid |] eqn:Huid.
  - destruct (generate_content W (trace st) "gemini-1.5-pro" prompt)
      as [response | e] eqn:Hgen.
    + destruct (text response) as [itinerary | e] eqn:Htext.
      * left.
        destruct (generate_itinerary_success form st uid response itinerary
                    Huid Hgen Htext) as (w & st_w & _ & _ & ->).
        reflexivity.
      * right.
        rewrite (generate_itinerary_raises form st uid e Huid).
        -- split; [discriminate | reflexivity].
        -- right. exists response. split; assumption.
    + right.
      rewrite (generate_itinerary_raises form st uid e Huid).
      * split; [discriminate | reflexivity].
      * left. exact Hgen.
  - right.
    unfold generate_itinerary, get_session, flash, mbind, M_bind, bind, ret.
    simpl. rewrite Huid. simpl. split; [discriminate |].
    unfold session_at. simpl. apply lookup_insert_ne. discriminate.
Qed.

(** What one request does to [travel_data]. *)
Lemma handle_effect_on_travel_data r st :
  (exists form, r = ReqGenerateItinerary form /\
                fst (generate_itinerary W form st) = Ok (Redirect "dashboard")) \/
  ((forall form, r = ReqGenerateItinerary form ->
                 fst (generate_itinerary W form st) <> Ok (Redirect "dashboard")) /\
   (session_at "travel_data" (snd (handle W r st)) = None \/
    session_at "travel_data" (snd (handle W r st)) = session_at "travel_data" st)).
Proof.
  assert (Hkeeps : forall c : M Response,
            keeps (session_at "travel_data") c ->
            session_at "travel_data" (snd (c st)) = session_at "travel_data" st)
    by (intros c Hc; apply Hc).
  destruct r as [ | | | | | m form | m form | | form | j | | | ];
    try (right; split; [discriminate |]; right; apply Hkeeps; simpl; first
      [ apply keeps_travel_data_dashboard
      | apply keeps_travel_data_login
      | apply keeps_travel_data_register
      | unfold home, index, about, contact, blog, trip_planner, deals;
        keeps_travel_data; fail ]).
  - right. split; [discriminate |]. left. apply logout_travel_data.
  - destruct (generate_itinerary_cases form st) as [Hok | [Hbad Hsame]].
    + left. exists form. split; [reflexivity | exact Hok].
    + right. split; [| right; exact Hsame].
      intros form' [= <-]. exact Hbad.
Qed.

Lemma run_app st reqs1 reqs2 :
  run W st (reqs1 ++ reqs2) = run W (run W st reqs1) reqs2.
Proof.
  revert st. induction reqs1 as [| r reqs1 IH]; intros st; simpl;
    [reflexivity | apply IH].
Qed.

End TravelData.

Lemma snoc_eq_app_cons {A} (l : list A) (x : A) (mid : list A) (y : A) rest :
  l ++ [x] = mid ++ y :: rest ->
  (rest = [] /\ mid = l /\ y = x) \/
  (exists rest', rest = rest' ++ [x] /\ l = mid ++ y :: rest').
Proof.
  intros H. induction rest as [| z rest' _] using rev_ind.
  - apply app_inj_tail in H as [-> ->]. left. auto.
  - change (mid ++ y :: rest' ++ [z]) with (mid ++ (y :: rest') ++ [z]) in H.
    rewrite app_assoc in H. apply app_inj_tail in H as [-> ->].
    right. exists rest'. auto.
Qed.

(** Along a run that starts without a travel bundle, a bundle found in the
    session was stored by a generation request of the run that answered
    with the redirect to the dashboard, and no generation request after it
    did. *)
Lemma run_travel_data_latest (W : World) (reqs : list Request) (st : State)
    (bundle : pyval) :
  session st !! "travel_data" = None ->
  session (run W st reqs) !! "travel_data" = Some bundle ->
  exists before form after,
    reqs = before ++ ReqGenerateItinerary form :: after /\
    fst (generate_itinerary W form (run W st before)) = Ok (Redirect "dashboard") /\
    session (snd (generate_itinerary W form (run W st before))) !! "travel_data"
      = Some bundle /\
    (forall mid form' rest,
       after = mid ++ ReqGenerateItinerary form' :: rest ->
       fst (generate_itinerary W form'
              (run W st (before ++ ReqGenerateItinerary form :: mid)))
         <> Ok (Redirect "dashboard")).
Proof.
  intros Hinit.
  induction reqs as [| r reqs IH] using rev_ind; intros Hfinal.
  - simpl in Hfinal. congruence.
  - rewrite run_app in Hfinal. simpl in Hfinal.
    destruct (handle_effect_on_travel_data W r (run W st reqs))
      as [(form & -> & Hok) | (Hnot & [Hnone | Hsame])].
    + exists reqs, form, []. split; [reflexivity |].
      split; [exact Hok |]. split; [exact Hfinal |].
      intros mid form' rest Habs.
      destruct (app_cons_not_nil _ _ _ Habs).
    + unfold session_at in Hnone. congruence.
    + unfold session_at in Hsame. rewrite Hsame in Hfinal.
      destruct (IH Hfinal) as (before & form & after & -> & Hok & Hb & Hlast).
      exists before, form, (after ++ [r]).
      split; [rewrite <- app_assoc; reflexivity |].
      split; [exact Hok |]. split; [exact Hb |].
      intros mid form' rest Hsplit.
      apply snoc_eq_app_cons in Hsplit
        as [(-> & -> & Hr) | (rest' & -> & ->)].
      * apply Hnot. symmetry. exact Hr.
      * eapply Hlast. reflexivity.
Qed.

Lemma length_append (a b : string) :
  String.length (a +:+ b) = (String.length a + String.length b)%nat.
Proof. induction a as [| c a IH]; simpl; [reflexivity | rewrite IH; reflexivity]. Qed.

Lemma quiet_world_hash_not_plain salt pw :
  generate_password_hash quiet_world "pbkdf2:sha256" salt pw <> pw.
Proof.
  unfold quiet_world, generate_password_hash.
  intros H. apply (f_equal String.length) in H.
  rewrite !length_append in H. simpl in H. lia.
Qed.

(** A generation request answered with the redirect to the dashboard went
    through the whole handler: the session carried an identity, the text
    service answered with a text, and what is stored under [travel_data] is
    the dictionary of the form's fields, that text and the weather record
    of the destination. *)
Lemma generate_itinerary_redirect_inv (W : World) (form : Form) (st : State) :
  let destination := of_opt (form_get form "destination") in
  let start_date := of_opt (form_get form "startDate") in
  let end_date := of_opt (form_get form "endDate") in
  let prompt := itinerary_prompt W destination start_date end_date in
  fst (generate_itinerary W form st) = Ok (Redirect "dashboard") ->
  exists response itinerary weather_data,
    generate_content W (trace st) "gemini-1.5-pro" prompt = Ok response /\
    text response = Ok itinerary /\
    fst (get_weather_data W destination
           (with_trace (EvGenerate "gemini-1.5-pro" prompt) st))
      = Ok weather_data /\
    session (snd (generate_itinerary W form st)) !! "travel_data"
    = Some (PDict [
        ("destination", destination);
        ("start_date", start_date);
        ("end_date", end_date);
        ("itinerary", PStr itinerary);
        ("weather", weather_data)
      ]).
Proof.
  intros destination start_date end_date prompt Hok.
  destruct (session st !! "user_id") as [uid |] eqn:Huid.
  - destruct (generate_content W (trace st) "gemini-1.5-pro" prompt)
      as [response | e] eqn:Hgen.
    + destruct (text response) as [itinerary | e] eqn:Htext.
      * destruct (generate_itinerary_success W form st uid response itinerary
                    Huid Hgen Htext) as (w & st_w & Hw & Hsession & Hrun).
        fold destination start_date end_date in Hw, Hrun.
        fold prompt in Hw.
        exists response, itinerary, w.
        split; [reflexivity |]. split; [exact Htext |].
        rewrite Hw, Hrun. simpl. split; [reflexivity |].
        apply lookup_insert_eq.
      * exfalso.
        rewrite (generate_itinerary_raises W form st uid e Huid) in Hok;
          [discriminate |].
        right. exists response. auto.
    + exfalso.
      rewrite (generate_itinerary_raises W form st uid e Huid) in Hok;
        [discriminate |].
      left. exact Hgen.
  - exfalso. revert Hok.
    unfold generate_itinerary, get_session, flash, mbind, M_bind, bind, ret.
    simpl. rewrite Huid. simpl. discriminate.
Qed.

(** * The specification's properties *)

(** C1. In a session carrying an identity, when the text service answers
    with a text, [generate_itinerary] redirects to the dashboard and the
    session it leaves is the session it found with [travel_data] set to the
    dictionary built from this request: [destination], [start_date] and
    [end_date] as the form gave them, [itinerary] the text of the service,
    and [weather] the record [get_weather_data] returned for the
    destination; whatever was under [travel_data] before is replaced.
    Hence, along any run from a session without a bundle, a bundle found in
    the session is that dictionary for a generation request of the run that
    succeeded, and no generation request served after that one succeeded. *)
Theorem travel_data_latest_generation (W : World) :
  (forall form st uid response itinerary,
     let destination := of_opt (form_get form "destination") in
     let start_date := of_opt (form_get form "startDate") in
     let end_date := of_opt (form_get form "endDate") in
     let prompt := itinerary_prompt W destination start_date end_date in
     session st !! "user_id" = Some uid ->
     generate_content W (trace st) "gemini-1.5-pro" prompt = Ok response ->
     text response = Ok itinerary ->
     exists weather_data,
       fst (get_weather_data W destination
              (with_trace (EvGenerate "gemini-1.5-pro" prompt) st))
         = Ok weather_data /\
       fst (generate_itinerary W form st) = Ok (Redirect "dashboard") /\
       session (snd (generate_itinerary W form st))
         = <["travel_data" :=
               PDict [
                 ("destination", destination);
                 ("start_date", start_date);
                 ("end_date", end_date);
                 ("itinerary", PStr itinerary);
                 ("weather", weather_data)
               ]]>
             (session st)) /\
  (forall st reqs bundle,
     session st !! "travel_data" = None ->
     session (run W st reqs) !! "travel_data" = Some bundle ->
     exists before form after,
       reqs = before ++ ReqGenerateItinerary form :: after /\
       fst (generate_itinerary W form (run W st before))
         = Ok (Redirect "dashboard") /\
       session (snd (generate_itinerary W form (run W st before))) !! "travel_data"
         = Some bundle /\
       (let destination := of_opt (form_get form "destination") in
        let start_date := of_opt (form_get form "startDate") in
        let end_date := of_opt (form_get form "endDate") in
        let prompt := itinerary_prompt W destination start_date end_date in
        exists response itinerary weather_data,
          generate_content W (trace (run W st before)) "gemini-1.5-pro" prompt
            = Ok response /\
          text response = Ok itinerary /\
          fst (get_weather_data W destination
                 (with_trace (EvGenerate "gemini-1.5-pro" prompt)
                    (run W st before)))
            = Ok weather_data /\
          bundle = PDict [
            ("destination", destination);
            ("start_date", start_date);
            ("end_date", end_date);
            ("itinerary", PStr itinerary);
            ("weather", weather_data)
          ]) /\
       (forall mid form' rest,
          after = mid ++ ReqGenerateItinerary form' :: rest ->
          fst (generate_itinerary W form'
                 (run W st (before ++ ReqGenerateItinerary form :: mid)))
            <> Ok (Redirect "dashboard"))).
Proof.
  split.
  - intros form st uid response itinerary destination start_date end_date prompt
      Huid Hgen Htext.
    destruct (generate_itinerary_success W form st uid response itinerary
                Huid Hgen Htext) as (w & st_w & Hw & Hsession & Hrun).
    exists w. fold destination start_date end_date prompt in Hw.
    rewrite Hw, Hrun. simpl. rewrite Hsession. auto.
  - intros st reqs bundle Hinit Hfinal.
    destruct (run_travel_data_latest W reqs st bundle Hinit Hfinal)
      as (before & form & after & Hreqs & Hok & Hbundle & Hlast).
    exists before, form, after.
    split; [exact Hreqs |]. split; [exact Hok |]. split; [exact Hbundle |].
    split; [| exact Hlast].
    destruct (generate_itinerary_redirect_inv W form (run W st before) Hok)
      as (response & itinerary & w & Hgen & Htext & Hw & Hstored).
    exists response, itinerary, w.
    split; [exact Hgen |]. split; [exact Htext |]. split; [exact Hw |].
    congruence.
Qed.

Lemma travel_data_latest_generation_witness :
  let st := mkState [] {["user_id" := PInt 1; "travel_data" := PStr "stale"]} [] in
  let form := [("destination", "Paris"); ("startDate", "2025-06-01");
               ("endDate", "2025-06-03")] in
  exists weather_data,
    fst (generate_itinerary quiet_world form st) = Ok (Redirect "dashboard") /\
    session (snd (generate_itinerary quiet_world form st)) !! "travel_data"
      = Some (PDict [("destination", PStr "Paris");
                     ("start_date", PStr "2025-06-01");
                     ("end_date", PStr "2025-06-03");
                     ("itinerary", PStr "**Day 1: Exploring Paris**");
                     ("weather", weather_data)]).
Proof.
  destruct (travel_data_latest_generation quiet_world) as (Hstep & _).
  destruct (Hstep
    [("destination", "Paris"); ("startDate", "2025-06-01"); ("endDate", "2025-06-03")]
    (mkState [] {["user_id" := PInt 1; "travel_data" := PStr "stale"]} [])
    (PInt 1) (mkGen (Ok "**Day 1: Exploring Paris**")) "**Day 1: Exploring Paris**")
    as (w & _ & Hresp & Hsession); [reflexivity | reflexivity | reflexivity |].
  exists w. split; [exact Hresp |].
  rewrite Hsession. apply lookup_insert_eq.
Defined.

Example generate_paris :
  let st := run quiet_world (mkState [] {["user_id" := PInt 1]} [])
              [ReqGenerateItinerary [("destination", "Paris");
                                     ("startDate", "2025-06-01");
                                     ("endDate", "2025-06-03")]] in
  session st !! "travel_data"
  = Some (PDict [("destination", PStr "Paris");
                 ("start_date", PStr "2025-06-01");
                 ("end_date", PStr "2025-06-03");
                 ("itinerary", PStr "**Day 1: Exploring Paris**");
                 ("weather", PDict [("error", PStr "Missing API Key")])]) /\
  fst (dashboard quiet_world st)
  = Ok (Render "dashboard.html"
          [("now", PStr "2025-06-01 09:00:00");
           ("travel_data",
            PDict [("destination", PStr "Paris");
                   ("start_date", PStr "2025-06-01");
                   ("end_date", PStr "2025-06-03");
                   ("itinerary", PStr "**Day 1: Exploring Paris**");
                   ("weather", PDict [("error", PStr "Missing API Key")])])]).
Proof. split; reflexivity. Qed.

(** C2. Suppose the hash werkzeug computes never equals the password it
    is given.  Then: (1) a request changes the user table only by
    [register] appending one row, whose password column holds
    [generate_password_hash] of the submitted password under a freshly
    drawn salt, which is not the submitted password; (2) along every run,
    a table whose password columns all hold such hashes keeps holding only
    such hashes; (3) for a table with pairwise distinct emails and a login
    form carrying a password, [login] answers with the redirect to the
    dashboard exactly when some stored user has the submitted email and the
    submitted password verifies against that user's stored hash; in that
    case the session identity is that user's, and otherwise the login page
    is rendered again and the session identity and the table are as they
    were. *)
Theorem password_storage_and_login (W : World) :
  (forall salt pw, generate_password_hash W "pbkdf2:sha256" salt pw <> pw) ->
  (forall r st,
     db (snd (handle W r st)) = db st \/
     exists form n e pw,
       r = ReqRegister POST form /\
       form_get form "name" = Some n /\
       form_get form "email" = Some e /\
       form_get form "password" = Some pw /\
       let h := generate_password_hash W "pbkdf2:sha256"
                  (gen_salt W (trace st)) pw in
       db (snd (handle W r st)) = (db st ++ [mkUser (next_id (db st)) n e h])%list /\
       h <> pw) /\
  (forall st reqs,
     hashed_store W (db st) -> hashed_store W (db (run W st reqs))) /\
  (forall st form pw,
     NoDup (map email (db st)) ->
     form_get form "password" = Some pw ->
     let verified (u : User) :=
       In u (db st) /\ form_get form "email" = Some (email u) /\
       check_password_hash W (password u) pw = true in
     let r := fst (login W POST form st) in
     let st' := snd (login W POST form st) in
     (r = Ok (Redirect "dashboard") <-> exists u, verified u) /\
     (forall u, verified u ->
        session st' !! "user_id" = Some (PInt (id u)) /\
        session st' !! "user_name" = Some (PStr (name u))) /\
     ((~ exists u, verified u) ->
        r = Ok (Render "login.html" []) /\
        session st' !! "user_id" = session st !! "user_id" /\
        session st' !! "user_name" = session st !! "user_name" /\
        db st' = db st)).
Proof.
  intros Hne. split; [| split].
  - intros r st.
    destruct (handle_effect_on_db W r st)
      as [H | (form & n & e & pw & Hr & Hn & He & Hpw & _ & _ & _ & Hdb)].
    + left. exact H.
    + right. exists form, n, e, pw. repeat (split; [assumption |]).
      apply Hne.
  - intros st reqs. apply run_keeps_hashed_store, Hne.
  - intros st form pw Huniq Hpw verified r st'.
    subst verified r st'. cbv beta.
    set (verified := fun u : User =>
           In u (db st) /\ form_get form "email" = Some (email u) /\
           check_password_hash W (password u) pw = true).
    assert (forall u, verified u ->
              query_first_by_email (db st) (form_get form "email") = Some u
              /\ check_password_hash W (password u) pw = true) as Hfound.
    { intros u (Hin & He & Hcheck). rewrite He.
      split; [apply unique_email_query; assumption | exact Hcheck]. }
    assert (forall u, verified u ->
              login W POST form st
              = (Ok (Redirect "dashboard"), with_session (login_identity u) st))
      as Hgood.
    { intros u Hu. destruct (Hfound u Hu) as [Hq Hcheck].
      apply login_success with (pw := pw); assumption. }
    assert ((~ exists u, verified u) ->
              login W POST form st
              = (Ok (Render "login.html" []),
                 with_session
                   (fun s => <["_flashes" :=
                      PList (flashes_of s ++
                             [PList [PStr "danger"; PStr "Invalid email or password!"]])]> s)
                   st)) as Hbad.
    { intros Hnone. apply login_failure with (pw := pw); [exact Hpw |].
      intros u Hq.
      destruct (check_password_hash W (password u) pw) eqn:Hcheck; [| reflexivity].
      exfalso. apply Hnone. exists u. unfold verified.
      destruct (form_get form "email") as [e |] eqn:He; [| discriminate].
      apply query_Some_In in Hq as [Hin <-]. repeat split; assumption. }
    split; [| split].
    + split.
      * intros Hr.
        destruct (query_first_by_email (db st) (form_get form "email"))
          as [u |] eqn:Hq.
        -- destruct (check_password_hash W (password u) pw) eqn:Hcheck.
           ++ exists u. unfold verified.
              destruct (form_get form "email") as [e |] eqn:He; [| discriminate].
              apply query_Some_In in Hq as [Hin <-]. repeat split; assumption.
           ++ exfalso.
              rewrite (login_failure W form st pw Hpw) in Hr; [discriminate |].
              intros u' Hq'. congruence.
        -- exfalso.
           rewrite (login_failure W form st pw Hpw) in Hr; [discriminate |].
           intros u' Hq'. congruence.
      * intros [u Hu]. rewrite (Hgood u Hu). reflexivity.
    + intros u Hu. rewrite (Hgood u Hu). simpl.
      unfold login_identity.
      rewrite lookup_insert_ne by discriminate.
      rewrite lookup_insert_ne by discriminate.
      rewrite lookup_insert_eq.
      rewrite lookup_insert_ne by discriminate.
      rewrite lookup_insert_eq. split; reflexivity.
    + intros Hnone. rewrite (Hbad Hnone). simpl.
      rewrite !lookup_insert_ne by discriminate.
      repeat split; reflexivity.
Qed.

Lemma password_storage_and_login_witness :
  let st := run quiet_world st0
              [ReqRegister POST [("name", "Ada"); ("email", "ada@example.org");
                                 ("password", "secret"); ("password2", "secret")]] in
  map password (db st) = ["pbkdf2:sha256$salt$secret"] /\
  (fst (login quiet_world POST
          [("email", "ada@example.org"); ("password", "secret")] st)
     = Ok (Redirect "dashboard") <->
   exists u, In u (db st) /\ Some "ada@example.org" = Some (email u) /\
             check_password_hash quiet_world (password u) "secret" = true).
Proof.
  split; [reflexivity |].
  destruct (password_storage_and_login quiet_world quiet_world_hash_not_plain)
    as (_ & _ & Hlogin).
  specialize (Hlogin
    (run quiet_world st0
       [ReqRegister POST [("name", "Ada"); ("email", "ada@example.org");
                          ("password", "secret"); ("password2", "secret")]])
    [("email", "ada@example.org"); ("password", "secret")] "secret").
  destruct Hlogin as (Hiff & _).
  - vm_compute. apply NoDup_cons. split; [apply not_elem_of_nil | apply NoDup_nil_2].
  - reflexivity.
  - exact Hiff.
Defined.

Example login_after_registration :
  let st := run quiet_world st0
              [ReqRegister POST [("name", "Ada"); ("email", "ada@example.org");
                                 ("password", "secret"); ("password2", "secret")]] in
  fst (login quiet_world POST
         [("email", "ada@example.org"); ("password", "secret")] st)
    = Ok (Redirect "dashboard") /\
  fst (login quiet_world POST
         [("email", "ada@example.org"); ("password", "Secret")] st)
    = Ok (Render "login.html" []).
Proof. split; reflexivity. Qed.

(** C3. Take two registration attempts carrying the same email, each with
    its fields filled in and its two passwords equal, and any requests
    served between them.  The second attempt leaves the notice
    [Email already registered!], redirects to the registration form, and
    leaves the user table exactly as it found it.  If the emails of the
    table were pairwise distinct before the first attempt, they still are
    after the second: no second row carries that email. *)
Theorem register_duplicate_email (W : World) (st : State)
    (first_form second_form : Form) (between : list Request)
    (e n1 p1 p2 : string) :
  form_get first_form "name" = Some n1 ->
  form_get first_form "email" = Some e ->
  form_get first_form "password" = Some p1 ->
  form_get first_form "password2" = Some p1 ->
  form_get second_form "email" = Some e ->
  form_get second_form "password" = Some p2 ->
  form_get second_form "password2" = Some p2 ->
  let st1 := run W st (ReqRegister POST first_form :: between) in
  let st2 := snd (handle W (ReqRegister POST second_form) st1) in
  fst (handle W (ReqRegister POST second_form) st1) = Ok (Redirect "register") /\
  session st2 !! "_flashes"
    = Some (PList (flashes_of (session st1)
                   ++ [PList [PStr "danger"; PStr "Email already registered!"]])) /\
  db st2 = db st1 /\
  (NoDup (map email (db st)) -> NoDup (map email (db st2))).
Proof.
  intros Hn1 He1 Hp1 Hp1' He2 Hp2 Hp2' st1 st2.
  assert (is_Some (query_first_by_email (db st1) (Some e))) as Hpresent.
  { unfold st1. simpl. apply run_keeps_email_present.
    eapply register_leaves_email_present; eassumption. }
  pose proof (register_conflict W second_form st1 e p2 He2 Hp2 Hp2' Hpresent)
    as Hrun.
  unfold st2.
  change (handle W (ReqRegister POST second_form) st1)
    with (register W POST second_form st1).
  rewrite Hrun. simpl.
  split; [reflexivity |]. split; [apply lookup_insert_eq |].
  split; [reflexivity |].
  intros Huniq. unfold st1. apply run_keeps_unique_emails, Huniq.
Qed.

Lemma register_duplicate_email_witness :
  let first_form := [("name", "Ada"); ("email", "ada@example.org");
                     ("password", "secret"); ("password2", "secret")] in
  let second_form := [("name", "Eve"); ("email", "ada@example.org");
                      ("password", "other"); ("password2", "other")] in
  let st1 := run quiet_world st0 [ReqRegister POST first_form; ReqHome] in
  fst (handle quiet_world (ReqRegister POST second_form) st1)
    = Ok (Redirect "register") /\
  db (snd (handle quiet_world (ReqRegister POST second_form) st1)) = db st1.
Proof.
  pose proof (register_duplicate_email quiet_world st0
    [("name", "Ada"); ("email", "ada@example.org");
     ("password", "secret"); ("password2", "secret")]
    [("name", "Eve"); ("email", "ada@example.org");
     ("password", "other"); ("password2", "other")]
    [ReqHome] "ada@example.org" "Ada" "secret" "other"
    eq_refl eq_refl eq_refl eq_refl eq_refl eq_refl eq_refl) as H.
  destruct H as (Hresp & _ & Hdb & _).
  split; [exact Hresp | exact Hdb].
Defined.

(** C4. When the two password fields differ, the first thing [register]
    does is leave the notice and redirect to the form: the user table is
    unchanged, and so is the trace (no salt was drawn: the hash was not
    computed and the table was not consulted). *)
Theorem register_password_mismatch (W : World) (form : Form) (st : State) :
  form_get form "password" <> form_get form "password2" ->
  register W POST form st
    = (Ok (Redirect "register"),
       with_session
         (fun s => <["_flashes" :=
            PList (flashes_of s ++ [PList [PStr "danger"; PStr "Passwords do not match!"]])]> s)
         st) /\
  db (snd (register W POST form st)) = db st /\
  trace (snd (register W POST form st)) = trace st.
Proof.
  intros Hne. unfold register.
  rewrite bool_decide_eq_false_2 by exact Hne. simpl.
  repeat split; reflexivity.
Qed.

Lemma register_password_mismatch_witness :
  let form := [("name", "Ada"); ("email", "ada@example.org");
               ("password", "secret"); ("password2", "secrte")] in
  db (snd (register quiet_world POST form st0)) = db st0 /\
  fst (register quiet_world POST form st0) = Ok (Redirect "register").
Proof.
  pose proof (register_password_mismatch quiet_world
    [("name", "Ada"); ("email", "ada@example.org");
     ("password", "secret"); ("password2", "secrte")] st0) as H.
  destruct H as (Hrun & Hdb & _); [discriminate |].
  split; [exact Hdb | rewrite Hrun; reflexivity].
Defined.

(** C5 (amended). [get_weather_data] returns for every city and every
    state, never raising, and what it returns is an error record or a
    weather record.  With a key configured: an exception of the transport
    becomes the error record carrying its text; a response whose status is
    not 200 and whose body decodes to a JSON object becomes the error record
    [API Error: m], where [m] is the text of the object's [message], or
    [Unknown error] when it has none; a response whose status is not 200 and
    whose body is not a JSON object becomes the error record carrying the
    text of the exception raised on the way. *)
Theorem get_weather_data_never_raises (W : World) (city : pyval) (st : State) :
  exists v st',
    get_weather_data W city st = (Ok v, st') /\
    (is_error_record v \/ is_weather_record v) /\
    (truthy (of_opt (OPENWEATHER_API_KEY W)) = true ->
     match requests_get W (trace st) (weather_url W city) with
     | Raise e => v = PDict [("error", PStr (exn_str e))]
     | Ok response =>
         status_code response <> 200 ->
         match json response with
         | Ok (PDict items) =>
             v = PDict [("error",
                   PStr ("API Error: " +:+
                         py_str W (default (PStr "Unknown error")
                                           (assoc "message" items))))]
         | Ok other =>
             v = PDict [("error", PStr (exn_str (AttributeError other "get")))]
         | Raise e => v = PDict [("error", PStr (exn_str e))]
         end
     end).
Proof.
  destruct (get_weather_data_total W city st) as (v & st' & Hrun & Hshape).
  exists v, st'. split; [exact Hrun |]. split; [exact Hshape |].
  intros Hkey. rewrite get_weather_data_with_key in Hrun by exact Hkey.
  revert Hrun.
  unfold try_except, weather_try, http_get, mbind, M_bind, bind, lift.
  destruct (requests_get W (trace st) (weather_url W city)) as [response | e].
  - intros Hrun Hstatus.
    apply Z.eqb_neq in Hstatus. rewrite Hstatus in Hrun. simpl in Hrun.
    destruct (json response) as [[| b | n | f | s | l | items] | e];
      simpl in Hrun; unfold ret in Hrun; injection Hrun as <- _; reflexivity.
  - unfold ret. congruence.
Qed.

Lemma get_weather_data_never_raises_witness :
  exists v st',
    get_weather_data unknown_city_world (PStr "InvalidCityXYZ") st0 = (Ok v, st') /\
    v = PDict [("error", PStr "API Error: city not found")].
Proof.
  destruct (get_weather_data_never_raises unknown_city_world
              (PStr "InvalidCityXYZ") st0) as (v & st' & Hrun & _ & Hkey).
  exists v, st'. split; [exact Hrun |].
  apply Hkey; [reflexivity | discriminate].
Defined.

(** C5 as stated fails: the claim has every response whose status is not
    200 yield an error record of the form [API Error: ...].  Here the
    provider's gateway answers 502 with a body that is not JSON;
    [response.json()] raises before the status is looked at, and the record
    carries that exception's text instead. *)
Lemma non_200_body_not_json_counterexample :
  OPENWEATHER_API_KEY bad_gateway_world = Some "k" /\
  (exists response,
     requests_get bad_gateway_world (trace st0)
       (weather_url bad_gateway_world (PStr "Paris")) = Ok response /\
     status_code response = 502) /\
  fst (get_weather_data bad_gateway_world (PStr "Paris") st0)
    = Ok (PDict [("error", PStr "Expecting value: line 1 column 1 (char 0)")]) /\
  (forall msg : string,
     fst (get_weather_data bad_gateway_world (PStr "Paris") st0)
       <> Ok (PDict [("error", PStr ("API Error: " +:+ msg))])).
Proof.
  split; [reflexivity |]. split; [eexists; split; reflexivity |].
  split; [reflexivity |].
  intros msg H. simpl in H. discriminate H.
Qed.

(** C6. Without a configured weather key (the environment variable unset,
    or set to the empty string), [get_weather_data] answers every city with
    the error record [Missing API Key] and leaves the state as it was: in
    particular the trace of outbound calls gains nothing. *)
Theorem get_weather_data_missing_key (W : World) (city : pyval) (st : State) :
  OPENWEATHER_API_KEY W = None \/ OPENWEATHER_API_KEY W = Some EmptyString ->
  get_weather_data W city st
    = (Ok (PDict [("error", PStr "Missing API Key")]), st) /\
  trace (snd (get_weather_data W city st)) = trace st.
Proof.
  intros Hkey. unfold get_weather_data.
  destruct Hkey as [-> | ->]; simpl; auto.
Qed.

Lemma get_weather_data_missing_key_witness :
  get_weather_data quiet_world (PStr "Paris") st0
    = (Ok (PDict [("error", PStr "Missing API Key")]), st0) /\
  trace (snd (get_weather_data quiet_world (PStr "Paris") st0)) = trace st0.
Proof.
  apply (get_weather_data_missing_key quiet_world (PStr "Paris") st0).
  left. reflexivity.
Defined.

(** C7 (amended). For a JSON object body without a [city] field,
    [get_weather] answers status 400 with the body
    [{"error": "City not provided"}] and leaves the state, hence the trace
    of outbound calls, as it was.  For a JSON object body whose [city] is a
    value Python takes as true (a non-empty string in particular), it
    answers with the record [get_weather_data] returns for that city as the
    JSON body. *)
Theorem get_weather_city_field (W : World) (items : list (string * pyval))
    (st : State) :
  (assoc "city" items = None ->
   get_weather W (Ok (PDict items)) st
     = (Ok (Json (PDict [("error", PStr "City not provided")]) 400), st)) /\
  (forall city,
     assoc "city" items = Some city ->
     truthy city = true ->
     exists w st',
       get_weather_data W city st = (Ok w, st') /\
       get_weather W (Ok (PDict items)) st = (Ok (Json w 200), st')).
Proof.
  unfold get_weather, lift, dict_get, mbind, M_bind, bind, ret. simpl. split.
  - intros ->. reflexivity.
  - intros city -> Htrue. simpl. rewrite Htrue. simpl.
    destruct (get_weather_data_total W city st) as (w & st' & Hrun & _).
    exists w, st'. rewrite Hrun. split; reflexivity.
Qed.

Lemma get_weather_city_field_witness :
  get_weather quiet_world (Ok (PDict [])) st0
    = (Ok (Json (PDict [("error", PStr "City not provided")]) 400), st0) /\
  exists w st',
    get_weather_data quiet_world (PStr "Paris") st0 = (Ok w, st') /\
    get_weather quiet_world (Ok (PDict [("city", PStr "Paris")])) st0
      = (Ok (Json w 200), st').
Proof.
  destruct (get_weather_city_field quiet_world [] st0) as (Hmissing & _).
  destruct (get_weather_city_field quiet_world [("city", PStr "Paris")] st0)
    as (_ & Hpresent).
  split; [apply Hmissing; reflexivity |].
  apply (Hpresent (PStr "Paris")); reflexivity.
Defined.

(** C7 as stated fails: the claim has every body with a city present
    answered with the weather record of that city.  The body
    [{"city": ""}] has the field, and the answer is the 400 response, not
    the record [get_weather_data] gives for the empty city. *)
Lemma get_weather_city_present_counterexample :
  assoc "city" [("city", PStr EmptyString)] = Some (PStr EmptyString) /\
  fst (get_weather_data quiet_world (PStr EmptyString) st0)
    = Ok (PDict [("error", PStr "Missing API Key")]) /\
  fst (get_weather quiet_world (Ok (PDict [("city", PStr EmptyString)])) st0)
    = Ok (Json (PDict [("error", PStr "City not provided")]) 400) /\
  fst (get_weather quiet_world (Ok (PDict [("city", PStr EmptyString)])) st0)
    <> Ok (Json (PDict [("error", PStr "Missing API Key")]) 200).
Proof.
  split; [reflexivity |]. split; [reflexivity |]. split; [reflexivity |].
  simpl. discriminate.
Qed.

(** C8. Whatever the session holds, [logout] empties it before leaving its
    notice: afterwards the session holds the flashed notice and nothing
    else, so neither the identity keys nor [travel_data] remain, and
    [dashboard] run on that session redirects to [login]. *)
Theorem logout_clears_session (W : World) (st : State) :
  fst (logout st) = Ok (Redirect "home") /\
  session (snd (logout st))
    = {["_flashes" := PList [PList [PStr "info"; PStr "You have been logged out!"]]]} /\
  session (snd (logout st)) !! "user_id" = None /\
  session (snd (logout st)) !! "user_name" = None /\
  session (snd (logout st)) !! "travel_data" = None /\
  fst (dashboard W (snd (logout st))) = Ok (Redirect "login").
Proof.
  unfold logout, dashboard, session_clear, flash, get_session,
    mbind, M_bind, bind, ret, with_session. simpl.
  rewrite flashes_of_empty. simpl. rewrite insert_empty.
  split; [reflexivity |]. split; [reflexivity |].
  rewrite !lookup_singleton_ne by discriminate.
  repeat split; reflexivity.
Qed.

(** C9. In an authenticated session, when the text-generation call raises
    (or its answer carries no text, so that reading it raises),
    [generate_itinerary] raises that same exception without producing a
    response; the only thing that happened is the generation call itself:
    the weather provider was not called, and the session, [travel_data]
    included, and the user table are as they were. *)
Theorem generate_itinerary_upstream_failure (W : World) (form : Form)
    (st : State) (e : PyExn) :
  let prompt :=
    itinerary_prompt W (of_opt (form_get form "destination"))
      (of_opt (form_get form "startDate")) (of_opt (form_get form "endDate")) in
  is_Some (session st !! "user_id") ->
  generate_content W (trace st) "gemini-1.5-pro" prompt = Raise e \/
  (exists response,
     generate_content W (trace st) "gemini-1.5-pro" prompt = Ok response /\
     text response = Raise e) ->
  generate_itinerary W form st
    = (Raise e, with_trace (EvGenerate "gemini-1.5-pro" prompt) st) /\
  session (snd (generate_itinerary W form st)) = session st /\
  session (snd (generate_itinerary W form st)) !! "travel_data"
    = session st !! "travel_data" /\
  db (snd (generate_itinerary W form st)) = db st /\
  trace (snd (generate_itinerary W form st))
    = (trace st ++ [EvGenerate "gemini-1.5-pro" prompt])%list.
Proof.
  intros prompt [uid Huid] Hfail.
  rewrite (generate_itinerary_raises W form st uid e Huid Hfail).
  repeat split; reflexivity.
Qed.

Lemma generate_itinerary_upstream_failure_witness :
  let st := mkState [] {["user_id" := PInt 1]} [] in
  let form := [("destination", "Paris"); ("startDate", "2025-06-01");
               ("endDate", "2025-06-03")] in
  fst (generate_itinerary bad_gateway_world form st)
    = Raise (mkExn "ServiceUnavailable" "503 overloaded") /\
  session (snd (generate_itinerary bad_gateway_world form st)) = session st.
Proof.
  pose proof (generate_itinerary_upstream_failure bad_gateway_world
    [("destination", "Paris"); ("startDate", "2025-06-01");
     ("endDate", "2025-06-03")]
    (mkState [] {["user_id" := PInt 1]} [])
    (mkExn "ServiceUnavailable" "503 overloaded")) as H.
  simpl in H.
  destruct H as (Hrun & Hsession & _).
  - exists (PInt 1). reflexivity.
  - left. reflexivity.
  - split; [rewrite Hrun; reflexivity | exact Hsession].
Defined.

(** C10. A JSON object body whose [city] is the empty string is answered
    as a body without the field is: status 400, the body
    [{"error": "City not provided"}], and the state, hence the trace of
    outbound calls, left as it was. *)
Theorem get_weather_empty_city (W : World) (items : list (string * pyval))
    (st : State) :
  assoc "city" items = Some (PStr EmptyString) ->
  get_weather W (Ok (PDict items)) st
    = (Ok (Json (PDict [("error", PStr "City not provided")]) 400), st) /\
  get_weather W (Ok (PDict items)) st = get_weather W (Ok (PDict [])) st.
Proof.
  intros Hcity.
  unfold get_weather, lift, dict_get, mbind, M_bind, bind, ret. simpl.
  rewrite Hcity. simpl. split; reflexivity.
Qed.

Lemma get_weather_empty_city_witness :
  get_weather unknown_city_world (Ok (PDict [("city", PStr EmptyString)])) st0
    = (Ok (Json (PDict [("error", PStr "City not provided")]) 400), st0) /\
  get_weather unknown_city_world (Ok (PDict [("city", PStr EmptyString)])) st0
    = get_weather unknown_city_world (Ok (PDict [])) st0.
Proof.
  apply (get_weather_empty_city unknown_city_world
           [("city", PStr EmptyString)] st0).
  reflexivity.
Defined.

(** * Further properties of the handlers *)

(** ** The identity kept in the session *)

Ltac keeps_session_key key :=
  repeat first
    [ apply keeps_ret
    | apply keeps_raise
    | apply keeps_lift
    | apply keeps_get_session
    | apply keeps_get_db
    | apply keeps_verify_password
    | apply keeps_now; exact (session_at_with_trace key)
    | apply keeps_hash_password; exact (session_at_with_trace key)
    | apply keeps_genai_generate; exact (session_at_with_trace key)
    | apply keeps_get_weather_data; exact (session_at_with_trace key)
    | apply keeps_get_weather; exact (session_at_with_trace key)
    | apply keeps_session_at_db_add_user
    | apply keeps_session_at_flash; discriminate
    | apply keeps_session_at_session_set; discriminate
    | apply keeps_bind; [| intro]
    | match goal with
      | |- keeps _ (match ?x with _ => _ end) => destruct x
      end ].

(** Apart from [login] and [logout], no handler writes the identity keys. *)
Lemma handle_keeps_identity (W : World) (key : string) (r : Request) (st : State) :
  key = "user_id" \/ key = "user_name" ->
  r <> ReqLogout ->
  (forall m form, r <> ReqLogin m form) ->
  session_at key (snd (handle W r st)) = session_at key st.
Proof.
  intros Hkey Hlogout Hlogin.
  assert (Hkeeps : forall c : M Response,
            keeps (session_at key) c ->
            session_at key (snd (c st)) = session_at key st)
    by (intros c Hc; apply Hc).
  destruct r as [ | | | | | m form | m form | | form | j | | | ];
    try congruence; try (exfalso; eapply Hlogin; reflexivity);
    apply Hkeeps; simpl;
    unfold home, index, dashboard, about, contact, register,
      generate_itinerary, blog, trip_planner, deals;
    destruct Hkey as [-> | ->];
    first [ keeps_session_key "user_id"; fail
          | keeps_session_key "user_name"; fail ].
Qed.

(** The two ways [login] can end. *)
Lemma login_cases (W : World) (m : Method) (form : Form) (st : State) :
  (exists u pw,
     m = POST /\
     form_get form "password" = Some pw /\
     query_first_by_email (db st) (form_get form "email") = Some u /\
     check_password_hash W (password u) pw = true /\
     login W m form st
     = (Ok (Redirect "dashboard"), with_session (login_identity u) st)) \/
  (fst (login W m form st) <> Ok (Redirect "dashboard") /\
   session_at "user_id" (snd (login W m form st)) = session_at "user_id" st /\
   session_at "user_name" (snd (login W m form st)) = session_at "user_name" st /\
   session_at "travel_data" (snd (login W m form st)) = session_at "travel_data" st).
Proof.
  destruct m.
  { right. simpl. repeat split; try reflexivity. discriminate. }
  destruct (query_first_by_email (db st) (form_get form "email")) as [u |] eqn:Hq.
  - destruct (form_get form "password") as [pw |] eqn:Hpw.
    + destruct (check_password_hash W (password u) pw) eqn:Hcheck.
      * left. exists u, pw. repeat (split; [reflexivity || assumption |]).
        apply login_success with (pw := pw); assumption.
      * right. rewrite (login_failure W form st pw Hpw).
        -- simpl. unfold session_at. simpl.
           rewrite !lookup_insert_ne by discriminate.
           repeat split; try reflexivity. discriminate.
        -- intros u' Hq'. congruence.
    + right.
      unfold login, get_db, verify_password, mbind, M_bind, bind, ret, raise.
      simpl. rewrite Hq, Hpw. simpl.
      repeat split; try reflexivity. discriminate.
  - right.
    unfold login, get_db, flash, mbind, M_bind, bind, ret. simpl.
    rewrite Hq. simpl. unfold session_at. simpl.
    rewrite !lookup_insert_ne by discriminate.
    repeat split; try reflexivity. discriminate.
Qed.

Lemma login_identity_lookup (u : User) (s : gmap string pyval) :
  login_identity u s !! "user_id" = Some (PInt (id u)) /\
  login_identity u s !! "user_name" = Some (PStr (name u)) /\
  login_identity u s !! "travel_data" = s !! "travel_data".
Proof.
  unfold login_identity.
  rewrite !(lookup_insert_ne _ "_flashes") by discriminate.
  rewrite (lookup_insert_ne _ "user_name" "user_id") by discriminate.
  rewrite (lookup_insert_ne _ "user_name" "travel_data") by discriminate.
  rewrite (lookup_insert_ne _ "user_id" "travel_data") by discriminate.
  rewrite !lookup_insert_eq. auto.
Qed.

Lemma logout_identity (st : State) :
  session_at "user_id" (snd (logout st)) = None /\
  session_at "user_name" (snd (logout st)) = None.
Proof.
  unfold session_at, logout, session_clear, flash, mbind, M_bind, bind, ret.
  simpl. rewrite !lookup_insert_ne by discriminate.
  rewrite lookup_empty. auto.
Qed.

Lemma handle_other_keeps_user_id (W : World) (r : Request) (st : State) :
  match r with ReqLogin _ _ | ReqLogout => False | _ => True end ->
  session (snd (handle W r st)) !! "user_id" = session st !! "user_id".
Proof.
  intros Hr.
  apply (handle_keeps_identity W "user_id" r st (or_introl eq_refl));
    destruct r; try contradiction; discriminate.
Qed.

(** X1. An identity enters a session that had none only through a [login] POST
    whose email is found in the table and whose password verifies against
    the stored hash; the identity is then that row's id. *)
Theorem identity_requires_verified_login (W : World) (r : Request) (st : State) :
  session st !! "user_id" = None ->
  is_Some (session (snd (handle W r st)) !! "user_id") ->
  exists form u pw,
    r = ReqLogin POST form /\
    form_get form "password" = Some pw /\
    query_first_by_email (db st) (form_get form "email") = Some u /\
    check_password_hash W (password u) pw = true /\
    fst (handle W r st) = Ok (Redirect "dashboard") /\
    session (snd (handle W r st)) !! "user_id" = Some (PInt (id u)).
Proof.
  intros Hnone Hsome.
  destruct r as [ | | | | | m form | m form | | form | j | | | ];
    try (exfalso;
         rewrite handle_other_keeps_user_id, Hnone in Hsome by exact I;
         destruct Hsome; discriminate).
  - change (handle W (ReqLogin m form) st) with (login W m form st) in *.
    destruct (login_cases W m form st)
      as [(u & pw & -> & Hpw & Hq & Hcheck & Hrun) | (_ & Hid & _)].
    + exists form, u, pw. rewrite Hrun. simpl.
      destruct (login_identity_lookup u (session st)) as (Hid & _).
      auto 10.
    + exfalso. unfold session_at in Hid. rewrite Hid, Hnone in Hsome.
      destruct Hsome; discriminate.
  - exfalso. destruct (logout_identity st) as [Hid _].
    unfold session_at in Hid.
    change (handle W ReqLogout st) with (logout st) in Hsome.
    rewrite Hid in Hsome. destruct Hsome; discriminate.
Qed.

Lemma identity_requires_verified_login_witness :
  let st := run quiet_world st0
              [ReqRegister POST [("name", "Ada"); ("email", "ada@example.org");
                                 ("password", "secret"); ("password2", "secret")]] in
  let r := ReqLogin POST [("email", "ada@example.org"); ("password", "secret")] in
  exists form u pw,
    r = ReqLogin POST form /\
    form_get form "password" = Some pw /\
    query_first_by_email (db st) (form_get form "email") = Some u /\
    check_password_hash quiet_world (password u) pw = true /\
    fst (handle quiet_world r st) = Ok (Redirect "dashboard") /\
    session (snd (handle quiet_world r st)) !! "user_id" = Some (PInt (id u)).
Proof.
  apply (identity_requires_verified_login quiet_world
    (ReqLogin POST [("email", "ada@example.org"); ("password", "secret")])
    (run quiet_world st0
       [ReqRegister POST [("name", "Ada"); ("email", "ada@example.org");
                          ("password", "secret"); ("password2", "secret")]])).
  - reflexivity.
  - eexists. reflexivity.
Defined.

(** One request other than [logout] leaves an identity in the session. *)
Lemma handle_keeps_logged_in (W : World) (r : Request) (st : State) :
  r <> ReqLogout ->
  is_Some (session st !! "user_id") ->
  is_Some (session (snd (handle W r st)) !! "user_id").
Proof.
  intros Hlogout Hsome.
  destruct r as [ | | | | | m form | m form | | form | j | | | ];
    try congruence;
    try (rewrite handle_other_keeps_user_id by exact I; exact Hsome).
  change (handle W (ReqLogin m form) st) with (login W m form st).
  destruct (login_cases W m form st)
    as [(u & pw & _ & _ & _ & _ & Hrun) | (_ & Hid & _)].
  - rewrite Hrun. simpl.
    destruct (login_identity_lookup u (session st)) as (Hid & _).
    rewrite Hid. eauto.
  - unfold session_at in Hid. rewrite Hid. exact Hsome.
Qed.

(** X2. Once a session carries an identity it keeps carrying one along every
    run in which [logout] is not requested: no other route removes it. *)
Theorem identity_persists_until_logout (W : World) (reqs : list Request)
    (st : State) :
  Forall (fun r => r <> ReqLogout) reqs ->
  is_Some (session st !! "user_id") ->
  is_Some (session (run W st reqs) !! "user_id").
Proof.
  intros Hreqs. revert st.
  induction Hreqs as [| r reqs Hr _ IH]; intros st Hsome; simpl.
  - exact Hsome.
  - apply IH, handle_keeps_logged_in; assumption.
Qed.

Lemma identity_persists_until_logout_witness :
  is_Some (session
             (run bad_gateway_world (mkState [] {["user_id" := PInt 1]} [])
                [ReqDashboard;
                 ReqGenerateItinerary [("destination", "Paris")];
                 ReqLogin POST [("email", "nobody@example.org"); ("password", "x")];
                 ReqGetWeather (Ok (PDict [("city", PStr "Paris")]))])
           !! "user_id").
Proof.
  apply (identity_persists_until_logout bad_gateway_world
    [ReqDashboard;
     ReqGenerateItinerary [("destination", "Paris")];
     ReqLogin POST [("email", "nobody@example.org"); ("password", "x")];
     ReqGetWeather (Ok (PDict [("city", PStr "Paris")]))]
    (mkState [] {["user_id" := PInt 1]} [])).
  - repeat constructor; discriminate.
  - eexists. reflexivity.
Defined.

(** A generation request answered with the redirect to the dashboard was
    made in a session carrying an identity. *)
Lemma generate_itinerary_success_inv (W : World) (form : Form) (st : State) :
  fst (generate_itinerary W form st) = Ok (Redirect "dashboard") ->
  is_Some (session st !! "user_id").
Proof.
  intros Hok.
  destruct (session st !! "user_id") as [uid |] eqn:Huid; [eauto |].
  exfalso. revert Hok.
  unfold generate_itinerary, get_session, flash, mbind, M_bind, bind, ret.
  simpl. rewrite Huid. simpl. discriminate.
Qed.

Lemma handle_keeps_travel_data_implies_identity (W : World) (r : Request)
    (st : State) :
  (is_Some (session st !! "travel_data") -> is_Some (session st !! "user_id")) ->
  is_Some (session (snd (handle W r st)) !! "travel_data") ->
  is_Some (session (snd (handle W r st)) !! "user_id").
Proof.
  intros Hinv Hafter.
  destruct (handle_effect_on_travel_data W r st)
    as [(form & -> & Hok) | (_ & [Hnone | Hsame])].
  - apply handle_keeps_logged_in; [discriminate |].
    eapply generate_itinerary_success_inv, Hok.
  - unfold session_at in Hnone. rewrite Hnone in Hafter.
    destruct Hafter; discriminate.
  - unfold session_at in Hsame. rewrite Hsame in Hafter.
    apply handle_keeps_logged_in; [| auto].
    intros ->. pose proof (logout_travel_data st) as Hout.
    unfold session_at in Hout.
    change (handle W ReqLogout st) with (logout st) in Hsame.
    rewrite Hout in Hsame.
    rewrite <- Hsame in Hafter. destruct Hafter; discriminate.
Qed.

(** X3. A travel bundle is only ever held by a session that carries an
    identity: along every run from a session of which this is true (an
    empty one in particular), whenever [travel_data] is present so is
    [user_id]. *)
Theorem travel_data_implies_identity (W : World) (reqs : list Request)
    (st : State) :
  (is_Some (session st !! "travel_data") -> is_Some (session st !! "user_id")) ->
  is_Some (session (run W st reqs) !! "travel_data") ->
  is_Some (session (run W st reqs) !! "user_id").
Proof.
  revert st. induction reqs as [| r reqs IH]; intros st Hinv; simpl.
  - exact Hinv.
  - apply IH. apply handle_keeps_travel_data_implies_identity, Hinv.
Qed.

Lemma travel_data_implies_identity_witness :
  let reqs :=
    [ReqRegister POST [("name", "Ada"); ("email", "ada@example.org");
                       ("password", "secret"); ("password2", "secret")];
     ReqLogin POST [("email", "ada@example.org"); ("password", "secret")];
     ReqGenerateItinerary [("destination", "Paris"); ("startDate", "2025-06-01");
                           ("endDate", "2025-06-03")]] in
  is_Some (session (run quiet_world st0 reqs) !! "travel_data") /\
  is_Some (session (run quiet_world st0 reqs) !! "user_id").
Proof.
  assert (is_Some (session (run quiet_world st0
    [ReqRegister POST [("name", "Ada"); ("email", "ada@example.org");
                       ("password", "secret"); ("password2", "secret")];
     ReqLogin POST [("email", "ada@example.org"); ("password", "secret")];
     ReqGenerateItinerary [("destination", "Paris"); ("startDate", "2025-06-01");
                           ("endDate", "2025-06-03")]]) !! "travel_data")) as Htd
    by (eexists; reflexivity).
  split; [exact Htd |].
  apply (travel_data_implies_identity quiet_world _ st0); [| exact Htd].
  intros [x Hx]. discriminate Hx.
Defined.

(** ** The user table along runs *)

Lemma handle_db_monotone (W : World) (r : Request) (st : State) (u : User) :
  In u (db st) -> In u (db (snd (handle W r st))).
Proof.
  intros Hin.
  destruct (handle_effect_on_db W r st)
    as [-> | (form & n & e & pw & _ & _ & _ & _ & _ & _ & _ & ->)];
    [exact Hin | apply in_or_app; left; exact Hin].
Qed.

(** X4. The user table only grows: along every run the rows present at
    the start are still there, unchanged and in place, with the new rows
    after them; and if the emails of the rows were pairwise distinct at the
    start they still are at the end. *)
Theorem user_table_append_only (W : World) (reqs : list Request) (st : State) :
  (exists added, db (run W st reqs) = db st ++ added) /\
  (NoDup (map email (db st)) -> NoDup (map email (db (run W st reqs)))).
Proof.
  split.
  - revert st. induction reqs as [| r reqs IH]; intros st; simpl.
    + exists []. symmetry. apply app_nil_r.
    + destruct (IH (snd (handle W r st))) as [added ->].
      destruct (handle_effect_on_db W r st)
        as [-> | (form & n & e & pw & _ & _ & _ & _ & _ & _ & _ & ->)].
      * eauto.
      * rewrite <- app_assoc. eauto.
  - apply run_keeps_unique_emails.
Qed.

(** ** The identity in the session refers to a stored user *)

Lemma query_Some_In_rows rows o u :
  query_first_by_email rows o = Some u -> In u rows.
Proof.
  destruct o as [e |]; [| discriminate].
  intros Hq. apply query_Some_In in Hq. tauto.
Qed.

Lemma identity_of_stored_user_ext (st st' : State) :
  session st' !! "user_id" = session st !! "user_id" ->
  session st' !! "user_name" = session st !! "user_name" ->
  (forall u, In u (db st) -> In u (db st')) ->
  identity_of_stored_user st -> identity_of_stored_user st'.
Proof.
  unfold identity_of_stored_user. intros -> -> Hdb.
  destruct (session st !! "user_id"), (session st !! "user_name"); auto.
  intros (u & Hin & Hi & Hn). exists u. auto.
Qed.

Lemma handle_keeps_identity_of_stored_user (W : World) (r : Request)
    (st : State) :
  identity_of_stored_user st ->
  identity_of_stored_user (snd (handle W r st)).
Proof.
  intros Hinv.
  destruct r as [ | | | | | m form | m form | | form | j | | | ];
    try (apply (identity_of_stored_user_ext st); [| | | exact Hinv];
         [ apply (handle_keeps_identity W "user_id"); auto; discriminate
         | apply (handle_keeps_identity W "user_name"); auto; discriminate
         | intros u; apply handle_db_monotone ]).
  - change (handle W (ReqLogin m form) st) with (login W m form st).
    destruct (login_cases W m form st)
      as [(u & pw & _ & _ & Hq & _ & Hrun) | (_ & Hid & Hname & _)].
    + rewrite Hrun. unfold identity_of_stored_user. simpl.
      destruct (login_identity_lookup u (session st)) as (-> & -> & _).
      exists u. split; [eapply query_Some_In_rows, Hq | auto].
    + apply (identity_of_stored_user_ext st); [exact Hid | exact Hname | | exact Hinv].
      intros u. apply (handle_db_monotone W (ReqLogin m form)).
  - change (handle W ReqLogout st) with (logout st).
    destruct (logout_identity st) as [Hid Hname].
    unfold identity_of_stored_user, session_at in *. rewrite Hid, Hname. exact I.
Qed.

(** X5. Along every run, the identity carried by the session (none at all, or
    both [user_id] and [user_name]) is the id and the name of one and the
    same row of the user table. *)
Theorem session_identity_is_stored_user (W : World) (reqs : list Request)
    (st : State) :
  identity_of_stored_user st ->
  identity_of_stored_user (run W st reqs).
Proof.
  revert st. induction reqs as [| r reqs IH]; intros st Hinv; simpl.
  - exact Hinv.
  - apply IH, handle_keeps_identity_of_stored_user, Hinv.
Qed.

Lemma session_identity_is_stored_user_witness :
  identity_of_stored_user
    (run quiet_world st0
       [ReqRegister POST [("name", "Ada"); ("email", "ada@example.org");
                          ("password", "secret"); ("password2", "secret")];
        ReqLogin POST [("email", "ada@example.org"); ("password", "secret")];
        ReqDashboard]).
Proof.
  apply (session_identity_is_stored_user quiet_world _ st0).
  unfold identity_of_stored_user, st0. simpl. rewrite !lookup_empty. exact I.
Defined.

(** ** Registration followed by login *)

(** The successful path of [register]. *)
Lemma register_success (W : World) (form : Form) (st : State) (n e pw : string) :
  form_get form "name" = Some n ->
  form_get form "email" = Some e ->
  form_get form "password" = Some pw ->
  form_get form "password2" = Some pw ->
  query_first_by_email (db st) (Some e) = None ->
  fst (register W POST form st) = Ok (Redirect "login") /\
  db (snd (register W POST form st))
  = db st ++ [mkUser (next_id (db st)) n e
                (generate_password_hash W "pbkdf2:sha256" (gen_salt W (trace st)) pw)].
Proof.
  intros Hn He Hpw Hpw2 Hq. unfold register.
  rewrite Hn, He, Hpw, Hpw2.
  rewrite bool_decide_eq_true_2 by reflexivity. simpl.
  unfold hash_password, get_db, db_add_user, flash, mbind, M_bind, bind, ret.
  simpl. simpl in Hq. rewrite Hq. simpl. rewrite Hq. simpl. auto.
Qed.

Lemma handle_keeps_query_result (W : World) (r : Request) (st : State)
    (e : string) (u : User) :
  query_first_by_email (db st) (Some e) = Some u ->
  query_first_by_email (db (snd (handle W r st))) (Some e) = Some u.
Proof.
  intros Hq.
  destruct (handle_effect_on_db W r st)
    as [-> | (form & n & e' & pw & _ & _ & _ & _ & _ & _ & _ & ->)];
    [exact Hq |].
  simpl in *. rewrite find_snoc, Hq. reflexivity.
Qed.

Lemma run_keeps_query_result (W : World) (reqs : list Request) (st : State)
    (e : string) (u : User) :
  query_first_by_email (db st) (Some e) = Some u ->
  query_first_by_email (db (run W st reqs)) (Some e) = Some u.
Proof.
  revert st. induction reqs as [| r reqs IH]; intros st Hq; simpl.
  - exact Hq.
  - apply IH, handle_keeps_query_result, Hq.
Qed.

(** X6. Registering and then logging in.  Suppose werkzeug's check accepts the
    password against the hash made from it with the salt drawn.  When a registration with all
    its fields, equal passwords and an email the table does not have yet is
    served, then, whatever requests are served in between, a later login
    with that email and that password is answered with the redirect to the
    dashboard and leaves in the session the id given to the new row and the
    registered name. *)
Theorem register_then_login (W : World) (st : State) (form login_form : Form)
    (between : list Request) (n e pw : string) :
  check_password_hash W
    (generate_password_hash W "pbkdf2:sha256" (gen_salt W (trace st)) pw) pw
    = true ->
  form_get form "name" = Some n ->
  form_get form "email" = Some e ->
  form_get form "password" = Some pw ->
  form_get form "password2" = Some pw ->
  query_first_by_email (db st) (Some e) = None ->
  form_get login_form "email" = Some e ->
  form_get login_form "password" = Some pw ->
  let st1 := run W st (ReqRegister POST form :: between) in
  fst (handle W (ReqRegister POST form) st) = Ok (Redirect "login") /\
  fst (handle W (ReqLogin POST login_form) st1) = Ok (Redirect "dashboard") /\
  session (snd (handle W (ReqLogin POST login_form) st1)) !! "user_id"
    = Some (PInt (next_id (db st))) /\
  session (snd (handle W (ReqLogin POST login_form) st1)) !! "user_name"
    = Some (PStr n).
Proof.
  intros Hcheck Hn He Hpw Hpw2 Hfree Hle Hlpw st1.
  destruct (register_success W form st n e pw Hn He Hpw Hpw2 Hfree)
    as [Hresp Hdb].
  split; [exact Hresp |].
  set (row := mkUser (next_id (db st)) n e
                (generate_password_hash W "pbkdf2:sha256"
                   (gen_salt W (trace st)) pw)) in *.
  assert (query_first_by_email (db st1) (Some e) = Some row) as Hq.
  { unfold st1.
    change (run W st (ReqRegister POST form :: between))
      with (run W (snd (register W POST form st)) between).
    apply run_keeps_query_result.
    rewrite Hdb. simpl. simpl in Hfree. rewrite find_snoc, Hfree. simpl.
    rewrite String.eqb_refl. reflexivity. }
  change (handle W (ReqLogin POST login_form) st1)
    with (login W POST login_form st1).
  rewrite (login_success W login_form st1 pw row Hlpw).
  - simpl. destruct (login_identity_lookup row (session st1)) as (-> & -> & _).
    auto.
  - rewrite Hle. exact Hq.
  - exact Hcheck.
Qed.

Lemma register_then_login_witness :
  let form := [("name", "Ada"); ("email", "ada@example.org");
               ("password", "secret"); ("password2", "secret")] in
  let login_form := [("email", "ada@example.org"); ("password", "secret")] in
  let st1 := run quiet_world st0 [ReqRegister POST form; ReqLogout; ReqHome] in
  fst (handle quiet_world (ReqLogin POST login_form) st1)
    = Ok (Redirect "dashboard") /\
  session (snd (handle quiet_world (ReqLogin POST login_form) st1)) !! "user_name"
    = Some (PStr "Ada").
Proof.
  pose proof (register_then_login quiet_world st0
    [("name", "Ada"); ("email", "ada@example.org");
     ("password", "secret"); ("password2", "secret")]
    [("email", "ada@example.org"); ("password", "secret")]
    [ReqLogout; ReqHome] "Ada" "ada@example.org" "secret") as H.
  destruct H as (_ & Hresp & _ & Hname); try reflexivity.
  split; [exact Hresp | exact Hname].
Defined.

(** ** Outbound calls of the weather lookup *)

Lemma bind_snd_pure {A B : Type} (c : M A) (k : A -> M B) (st : State) :
  (forall a, keeps (fun s => s) (k a)) ->
  snd ((c ≫= k) st) = snd (c st).
Proof.
  intros Hk. unfold mbind, M_bind, bind.
  destruct (c st) as [[a | e] st1]; simpl; [apply Hk | reflexivity].
Qed.

Lemma try_except_snd_pure {A : Type} (c : M A) (h : PyExn -> M A) (st : State) :
  (forall e, keeps (fun s => s) (h e)) ->
  snd (try_except c h st) = snd (c st).
Proof.
  intros Hh. unfold try_except.
  destruct (c st) as [[a | e] st1]; simpl; [reflexivity | apply Hh].
Qed.

Lemma weather_try_state (W : World) (city : pyval) (st : State) :
  snd (weather_try W city st) = with_trace (EvHttpGet (weather_url W city)) st.
Proof.
  unfold weather_try. rewrite bind_snd_pure; [reflexivity |].
  intros response.
  apply keeps_bind; [apply keeps_lift | intros weather_data].
  destruct (negb (status_code response =? 200)%Z).
  - apply keeps_bind; [apply keeps_dict_get | intro; apply keeps_ret].
  - repeat (apply keeps_bind;
            [first [ apply keeps_str_capitalize | apply keeps_getitem
                   | apply keeps_getitem0 ] | intro]).
    apply keeps_ret.
Qed.

Lemma get_weather_data_one_call_aux (W : World) (city : pyval) (st : State) :
  truthy (of_opt (OPENWEATHER_API_KEY W)) = true ->
  trace (snd (get_weather_data W city st))
    = trace st ++ [EvHttpGet (weather_url W city)] /\
  session (snd (get_weather_data W city st)) = session st /\
  db (snd (get_weather_data W city st)) = db st.
Proof.
  intros Hkey. rewrite get_weather_data_with_key by exact Hkey.
  rewrite try_except_snd_pure by (intro; apply keeps_ret).
  rewrite weather_try_state. auto.
Qed.

(** X7. With a key configured, [get_weather_data] makes exactly one outbound
    call, the GET of the weather URL of the city, whatever the provider
    answers and whether or not the lookup ends in an error record; the
    session and the user table are not touched. *)
Theorem get_weather_data_one_call (W : World) (city : pyval) (st : State) :
  truthy (of_opt (OPENWEATHER_API_KEY W)) = true ->
  trace (snd (get_weather_data W city st))
    = trace st ++ [EvHttpGet (weather_url W city)] /\
  session (snd (get_weather_data W city st)) = session st /\
  db (snd (get_weather_data W city st)) = db st.
Proof.
  intros Hkey. rewrite get_weather_data_with_key by exact Hkey.
  rewrite try_except_snd_pure by (intro; apply keeps_ret).
  rewrite weather_try_state. auto.
Qed.

Lemma get_weather_data_one_call_witness :
  trace (snd (get_weather_data bad_gateway_world (PStr "Paris") st0))
    = trace st0 ++ [EvHttpGet (weather_url bad_gateway_world (PStr "Paris"))] /\
  session (snd (get_weather_data bad_gateway_world (PStr "Paris") st0)) = session st0 /\
  db (snd (get_weather_data bad_gateway_world (PStr "Paris") st0)) = db st0.
Proof.
  apply (get_weather_data_one_call bad_gateway_world (PStr "Paris") st0).
  reflexivity.
Defined.

(** ** The weather record *)

(** X8. For a city given as a string, a 200 answer whose body has the weather
    description and icon, the temperatures and humidity under [main] and
    the wind speed gives the weather record: the city as Python's
    [capitalize] returns it, the provider's values as they came, and the
    icon URL built from the icon code. *)
Theorem get_weather_data_success (W : World) (c : string) (st : State)
    (response : HttpResponse) (items w0 m wd : list (string * pyval))
    (wrest : list pyval)
    (description icon temp temp_min temp_max humidity speed : pyval) :
  truthy (of_opt (OPENWEATHER_API_KEY W)) = true ->
  requests_get W (trace st) (weather_url W (PStr c)) = Ok response ->
  status_code response = 200 ->
  json response = Ok (PDict items) ->
  assoc "weather" items = Some (PList (PDict w0 :: wrest)) ->
  assoc "description" w0 = Some description ->
  assoc "icon" w0 = Some icon ->
  assoc "main" items = Some (PDict m) ->
  assoc "temp" m = Some temp ->
  assoc "temp_min" m = Some temp_min ->
  assoc "temp_max" m = Some temp_max ->
  assoc "humidity" m = Some humidity ->
  assoc "wind" items = Some (PDict wd) ->
  assoc "speed" wd = Some speed ->
  fst (get_weather_data W (PStr c) st)
  = Ok (PDict [
      ("location", PStr (py_capitalize W c));
      ("description", description);
      ("temperature", temp);
      ("temp_min", temp_min);
      ("temp_max", temp_max);
      ("humidity", humidity);
      ("wind_speed", speed);
      ("icon", PStr ("http://openweathermap.org/img/w/" +:+ py_str W icon +:+ ".png"))
    ]).
Proof.
  intros Hkey Hget Hstatus Hjson Hw Hdesc Hicon Hm Ht Htmin Htmax Hhum Hwd Hsp.
  rewrite get_weather_data_with_key by exact Hkey.
  unfold try_except, weather_try, http_get, lift, str_capitalize, getitem,
    getitem0, mbind, M_bind, bind, ret.
  rewrite Hget, Hjson, Hstatus. simpl.
  rewrite Hw. simpl. rewrite Hdesc. simpl.
  rewrite Hm. simpl. rewrite Ht, Htmin, Htmax, Hhum. simpl.
  rewrite Hwd. simpl. rewrite Hsp. simpl.
  rewrite Hicon. reflexivity.
Qed.

Lemma get_weather_data_success_witness :
  fst (get_weather_data sunny_world (PStr "pARIS") st0)
  = Ok (PDict [("location", PStr "Paris");
               ("description", PStr "clear sky");
               ("temperature", PFloat 21.5%float);
               ("temp_min", PFloat 19%float);
               ("temp_max", PFloat 24%float);
               ("humidity", PInt 40);
               ("wind_speed", PFloat 3.5%float);
               ("icon", PStr "http://openweathermap.org/img/w/01d.png")]).
Proof.
  apply (get_weather_data_success sunny_world "pARIS" st0
           (mkHttp 200 (Ok (PDict [
             ("weather", PList [PDict [("description", PStr "clear sky");
                                       ("icon", PStr "01d")]]);
             ("main", PDict [("temp", PFloat 21.5%float);
                             ("temp_min", PFloat 19%float);
                             ("temp_max", PFloat 24%float);
                             ("humidity", PInt 40)]);
             ("wind", PDict [("speed", PFloat 3.5%float)])])))
           [("weather", PList [PDict [("description", PStr "clear sky");
                                      ("icon", PStr "01d")]]);
            ("main", PDict [("temp", PFloat 21.5%float);
                            ("temp_min", PFloat 19%float);
                            ("temp_max", PFloat 24%float);
                            ("humidity", PInt 40)]);
            ("wind", PDict [("speed", PFloat 3.5%float)])]
           [("description", PStr "clear sky"); ("icon", PStr "01d")]
           [("temp", PFloat 21.5%float); ("temp_min", PFloat 19%float);
            ("temp_max", PFloat 24%float); ("humidity", PInt 40)]
           [("speed", PFloat 3.5%float)] []
           (PStr "clear sky") (PStr "01d") (PFloat 21.5%float) (PFloat 19%float)
           (PFloat 24%float) (PInt 40) (PFloat 3.5%float));
    reflexivity.
Defined.

(** The [try] block gives a weather record only for a city that is a
    string. *)
Lemma weather_try_record_city (W : World) (city : pyval) (st : State)
    (v : pyval) (st' : State) :
  weather_try W city st = (Ok v, st') ->
  is_error_record v \/ exists c, city = PStr c.
Proof.
  unfold weather_try. intros H.
  bind_inv H. bind_inv H.
  destruct (negb (status_code a =? 200)%Z).
  - bind_inv H. unfold ret in H. injection H as <- _.
    left. eexists. reflexivity.
  - bind_inv H. right.
    destruct city; simpl in Hc1; try discriminate. eauto.
Qed.

(** X9. A city that is not a string (a number or a list in a JSON body, a
    missing form field) always ends in an error record, also when the
    provider answers 200 with a full body: the location is computed with
    [capitalize], which only a string has. *)
Theorem get_weather_data_city_not_string (W : World) (city : pyval) (st : State) :
  (forall c, city <> PStr c) ->
  exists msg st',
    get_weather_data W city st = (Ok (PDict [("error", PStr msg)]), st').
Proof.
  intros Hcity. unfold get_weather_data.
  destruct (negb (truthy (of_opt (OPENWEATHER_API_KEY W)))); [eexists _, _; reflexivity |].
  unfold try_except.
  destruct (weather_try W city st) as [[v | e] st'] eqn:Hbody.
  - destruct (weather_try_record_city W city st v st' Hbody)
      as [[msg ->] | [c Hc]].
    + eauto.
    + destruct (Hcity c Hc).
  - eexists _, _. reflexivity.
Qed.

Lemma get_weather_data_city_not_string_witness :
  exists msg st',
    get_weather_data sunny_world (PInt 5) st0
    = (Ok (PDict [("error", PStr msg)]), st').
Proof.
  apply (get_weather_data_city_not_string sunny_world (PInt 5) st0).
  discriminate.
Defined.

(** ** Requests made without an identity *)

(** Without [user_id] in the session, [dashboard] and [generate_itinerary]
    do nothing but leave their warning and redirect to [login]: no outbound
    call is made, nothing is stored under [travel_data], and the user table
    is not touched. *)
Theorem anonymous_redirected_to_login (W : World) (form : Form) (st : State) :
  session st !! "user_id" = None ->
  dashboard W st
  = (Ok (Redirect "login"),
     with_session
       (fun s => <["_flashes" :=
          PList (flashes_of s ++
                 [PList [PStr "warning"; PStr "Please login to access your dashboard."]])]> s)
       st) /\
  generate_itinerary W form st
  = (Ok (Redirect "login"),
     with_session
       (fun s => <["_flashes" :=
          PList (flashes_of s ++
                 [PList [PStr "warning"; PStr "Please login to generate an itinerary."]])]> s)
       st) /\
  trace (snd (generate_itinerary W form st)) = trace st /\
  session (snd (generate_itinerary W form st)) !! "travel_data"
    = session st !! "travel_data".
Proof.
  intros Hanon.
  unfold dashboard, generate_itinerary, get_session, flash,
    mbind, M_bind, bind, ret. simpl. rewrite Hanon. simpl.
  repeat split. apply lookup_insert_ne. discriminate.
Qed.

Lemma anonymous_redirected_to_login_witness :
  fst (dashboard quiet_world st0) = Ok (Redirect "login") /\
  fst (generate_itinerary quiet_world [("destination", "Paris")] st0)
    = Ok (Redirect "login") /\
  trace (snd (generate_itinerary quiet_world [("destination", "Paris")] st0)) = [].
Proof.
  destruct (anonymous_redirected_to_login quiet_world [("destination", "Paris")] st0)
    as (Hd & Hg & Ht & _); [reflexivity |].
  rewrite Hd, Hg. repeat split.
Defined.

Lemma generate_calls_with_trace (ev : Event) (st : State) :
  is_generate ev = false ->
  generate_calls (with_trace ev st) = generate_calls st.
Proof.
  intros Hev. unfold generate_calls. simpl.
  rewrite List.filter_app. simpl. rewrite Hev. apply app_nil_r.
Qed.

Lemma keeps_generate_calls_http_get (W : World) url :
  keeps generate_calls (http_get W url).
Proof. intros st. apply generate_calls_with_trace. reflexivity. Qed.

Lemma keeps_generate_calls_now (W : World) : keeps generate_calls (now W).
Proof. intros st. apply generate_calls_with_trace. reflexivity. Qed.

Lemma keeps_generate_calls_hash_password (W : World) pw method :
  keeps generate_calls (hash_password W pw method).
Proof.
  intros st. unfold hash_password.
  destruct pw; apply generate_calls_with_trace; reflexivity.
Qed.

Lemma keeps_generate_calls_flash message category :
  keeps generate_calls (flash message category).
Proof. intros st. reflexivity. Qed.

Lemma keeps_generate_calls_session_set key v :
  keeps generate_calls (session_set key v).
Proof. intros st. reflexivity. Qed.

Lemma keeps_generate_calls_session_clear : keeps generate_calls session_clear.
Proof. intros st. reflexivity. Qed.

Lemma keeps_generate_calls_db_add_user n e h :
  keeps generate_calls (db_add_user n e h).
Proof.
  intros st. unfold db_add_user. destruct n, e; try reflexivity.
  destruct (query_first_by_email (db st) (Some s0)); reflexivity.
Qed.

Ltac keeps_generate_calls :=
  repeat first
    [ apply keeps_ret
    | apply keeps_raise
    | apply keeps_lift
    | apply keeps_get_session
    | apply keeps_get_db
    | apply keeps_verify_password
    | apply keeps_getitem
    | apply keeps_getitem0
    | apply keeps_dict_get
    | apply keeps_str_capitalize
    | apply keeps_generate_calls_http_get
    | apply keeps_generate_calls_now
    | apply keeps_generate_calls_hash_password
    | apply keeps_generate_calls_flash
    | apply keeps_generate_calls_session_set
    | apply keeps_generate_calls_session_clear
    | apply keeps_generate_calls_db_add_user
    | apply keeps_try_except; [| intro]
    | apply keeps_bind; [| intro]
    | match goal with
      | |- keeps _ (match ?x with _ => _ end) => destruct x
      end ].

Lemma keeps_generate_calls_get_weather_data (W : World) city :
  keeps generate_calls (get_weather_data W city).
Proof. unfold get_weather_data, weather_try. keeps_generate_calls. Qed.

(** Every route but [generate_itinerary] leaves the record of text-service
    calls as it is. *)
Lemma handle_keeps_generate_calls (W : World) (r : Request) (st : State) :
  (forall form, r <> ReqGenerateItinerary form) ->
  generate_calls (snd (handle W r st)) = generate_calls st.
Proof.
  intros Hr.
  assert (Hkeeps : forall c : M Response,
            keeps generate_calls c ->
            generate_calls (snd (c st)) = generate_calls st)
    by (intros c Hc; apply Hc).
  destruct r as [ | | | | | m form | m form | | form | j | | | ];
    try (exfalso; eapply Hr; reflexivity);
    apply Hkeeps; simpl;
    unfold home, index, dashboard, about, contact, login, register, logout,
      get_weather, blog, trip_planner, deals;
    keeps_generate_calls; apply keeps_generate_calls_get_weather_data.
Qed.

Lemma identity_appears_only_by_login (W : World) (r : Request) (st : State) :
  session st !! "user_id" = None ->
  is_Some (session (snd (handle W r st)) !! "user_id") ->
  exists form, r = ReqLogin POST form.
Proof.
  intros Hnone Hsome.
  destruct r as [ | | | | | m form | m form | | form | j | | | ];
    try (exfalso;
         rewrite handle_other_keeps_user_id, Hnone in Hsome by exact I;
         destruct Hsome; discriminate).
  - change (handle W (ReqLogin m form) st) with (login W m form st) in *.
    destruct (login_cases W m form st)
      as [(u & pw & -> & _) | (_ & Hid & _)]; [eauto |].
    exfalso. unfold session_at in Hid. rewrite Hid, Hnone in Hsome.
    destruct Hsome; discriminate.
  - exfalso. destruct (logout_identity st) as [Hid _].
    unfold session_at in Hid.
    change (handle W ReqLogout st) with (logout st) in Hsome.
    rewrite Hid in Hsome. destruct Hsome; discriminate.
Qed.

(** X10. The text-generation service is only ever called for a session that
    carries an identity: along a run that starts without one and in which
    no login form is posted, the session stays without identity and no call
    to the service is added to the trace, however many generation requests
    the run contains. *)
Theorem anonymous_run_calls_no_text_service (W : World) (reqs : list Request)
    (st : State) :
  Forall (fun r => forall form, r <> ReqLogin POST form) reqs ->
  session st !! "user_id" = None ->
  session (run W st reqs) !! "user_id" = None /\
  generate_calls (run W st reqs) = generate_calls st.
Proof.
  intros Hreqs. revert st.
  induction Hreqs as [| r reqs Hr _ IH]; intros st Hanon; simpl.
  - auto.
  - assert (session (snd (handle W r st)) !! "user_id" = None) as Hanon'.
    { destruct (session (snd (handle W r st)) !! "user_id") as [uid |] eqn:Hafter;
        [| reflexivity].
      exfalso.
      destruct (identity_appears_only_by_login W r st Hanon)
        as (form & ->); [rewrite Hafter; eauto |].
      exact (Hr form eq_refl). }
    destruct (IH _ Hanon') as [Hid Hcalls].
    split; [exact Hid |]. rewrite Hcalls.
    destruct r as [ | | | | | m form | m form | | form | j | | | ];
      try (apply handle_keeps_generate_calls; discriminate).
    change (handle W (ReqGenerateItinerary form) st)
      with (generate_itinerary W form st).
    unfold generate_itinerary, get_session, flash, mbind, M_bind, bind, ret.
    simpl. rewrite Hanon. reflexivity.
Qed.

Lemma anonymous_run_calls_no_text_service_witness :
  let reqs := [ReqGenerateItinerary [("destination", "Paris")];
               ReqDashboard;
               ReqLogin GET [];
               ReqGetWeather (Ok (PDict [("city", PStr "Paris")]))] in
  session (run sunny_world st0 reqs) !! "user_id" = None /\
  generate_calls (run sunny_world st0 reqs) = generate_calls st0.
Proof.
  apply (anonymous_run_calls_no_text_service sunny_world
    [ReqGenerateItinerary [("destination", "Paris")];
     ReqDashboard;
     ReqLogin GET [];
     ReqGetWeather (Ok (PDict [("city", PStr "Paris")]))] st0).
  - repeat constructor; intros form; discriminate.
  - reflexivity.
Defined.

(** ** Outbound calls of a successful generation *)

(** X11. A generation request that succeeds makes its outbound calls in this
    order: first the one call to the text service, with the model
    [gemini-1.5-pro] and the prompt built from the form, and then, only
    when a weather key is configured, the one GET of the weather URL of the
    destination.  The user table is not touched. *)
Theorem generate_itinerary_calls (W : World) (form : Form) (st : State)
    (uid : pyval) (response : GenResponse) (itinerary : string) :
  let destination := of_opt (form_get form "destination") in
  let prompt :=
    itinerary_prompt W destination (of_opt (form_get form "startDate"))
      (of_opt (form_get form "endDate")) in
  session st !! "user_id" = Some uid ->
  generate_content W (trace st) "gemini-1.5-pro" prompt = Ok response ->
  text response = Ok itinerary ->
  trace (snd (generate_itinerary W form st))
  = trace st ++ EvGenerate "gemini-1.5-pro" prompt ::
      (if truthy (of_opt (OPENWEATHER_API_KEY W))
       then [EvHttpGet (weather_url W destination)] else []) /\
  db (snd (generate_itinerary W form st)) = db st.
Proof.
  intros destination prompt Huid Hgen Htext.
  destruct (generate_itinerary_success W form st uid response itinerary
              Huid Hgen Htext) as (w & st_w & Hw & _ & Hrun).
  fold destination in Hw. fold prompt in Hw.
  rewrite Hrun. simpl.
  assert (st_w = snd (get_weather_data W destination
                        (with_trace (EvGenerate "gemini-1.5-pro" prompt) st)))
    as -> by (rewrite Hw; reflexivity).
  destruct (truthy (of_opt (OPENWEATHER_API_KEY W))) eqn:Hkey.
  - destruct (get_weather_data_one_call_aux W destination
                (with_trace (EvGenerate "gemini-1.5-pro" prompt) st) Hkey)
      as (-> & _ & ->).
    simpl. rewrite <- app_assoc. auto.
  - unfold get_weather_data. rewrite Hkey. simpl. auto.
Qed.

Lemma generate_itinerary_calls_witness :
  let st := mkState [] {["user_id" := PInt 1]} [] in
  let form := [("destination", "Paris"); ("startDate", "2025-06-01");
               ("endDate", "2025-06-03")] in
  trace (snd (generate_itinerary sunny_world form st))
  = [EvGenerate "gemini-1.5-pro"
       (itinerary_prompt sunny_world (PStr "Paris") (PStr "2025-06-01")
          (PStr "2025-06-03"));
     EvHttpGet
       "https://api.openweathermap.org/data/2.5/weather?q=Paris&units=metric&appid=k"].
Proof.
  destruct (generate_itinerary_calls sunny_world
    [("destination", "Paris"); ("startDate", "2025-06-01"); ("endDate", "2025-06-03")]
    (mkState [] {["user_id" := PInt 1]} [])
    (PInt 1) (mkGen (Ok "**Day 1: Exploring Paris**")) "**Day 1: Exploring Paris**")
    as (Htrace & _); [reflexivity | reflexivity | reflexivity |].
  cbv zeta. etransitivity; [exact Htrace | reflexivity].
Defined.

(** ** The dashboard after a generation *)

Lemma generate_itinerary_stores_bundle (W : World) (form : Form) (st : State) :
  fst (generate_itinerary W form st) = Ok (Redirect "dashboard") ->
  is_Some (session (snd (generate_itinerary W form st)) !! "travel_data") /\
  is_Some (session (snd (generate_itinerary W form st)) !! "user_id").
Proof.
  intros Hok.
  destruct (generate_itinerary_success_inv W form st Hok) as [uid Huid].
  set (prompt := itinerary_prompt W (of_opt (form_get form "destination"))
                   (of_opt (form_get form "startDate"))
                   (of_opt (form_get form "endDate"))).
  destruct (generate_content W (trace st) "gemini-1.5-pro" prompt)
    as [response | e] eqn:Hgen.
  - destruct (text response) as [itinerary | e] eqn:Htext.
    + destruct (generate_itinerary_success W form st uid response itinerary
                  Huid Hgen Htext) as (w & st_w & _ & Hsession & Hrun).
      rewrite Hrun. simpl. rewrite Hsession.
      rewrite lookup_insert_eq.
      rewrite lookup_insert_ne by discriminate. rewrite Huid. eauto.
    + exfalso.
      rewrite (generate_itinerary_raises W form st uid e Huid) in Hok;
        [discriminate |].
      right. exists response. auto.
  - exfalso.
    rewrite (generate_itinerary_raises W form st uid e Huid) in Hok;
      [discriminate |].
    left. exact Hgen.
Qed.

(** Routes other than [logout] and [generate_itinerary] leave the travel
    bundle as it is. *)
Lemma handle_keeps_travel_data (W : World) (r : Request) (st : State) :
  r <> ReqLogout ->
  (forall form, r <> ReqGenerateItinerary form) ->
  session (snd (handle W r st)) !! "travel_data" = session st !! "travel_data".
Proof.
  intros Hlogout Hgen.
  destruct (handle_effect_on_travel_data W r st)
    as [(form & -> & _) | (_ & [Hnone | Hsame])].
  - destruct (Hgen form eq_refl).
  - assert (Hkeeps : forall c : M Response,
              keeps (session_at "travel_data") c ->
              session_at "travel_data" (snd (c st)) = session_at "travel_data" st)
      by (intros c Hc; apply Hc).
    destruct r as [ | | | | | m form | m form | | form | j | | | ];
      try congruence; try (destruct (Hgen form eq_refl));
      apply Hkeeps; simpl; first
        [ apply keeps_travel_data_dashboard
        | apply keeps_travel_data_login
        | apply keeps_travel_data_register
        | unfold home, index, about, contact, blog, trip_planner, deals;
          keeps_travel_data; fail ].
  - exact Hsame.
Qed.

(** X12. After a generation request that succeeded, and whatever requests other
    than [logout] and further generations are served next, [dashboard]
    renders the dashboard page with the bundle that request stored. *)
Theorem dashboard_shows_generated_bundle (W : World) (form : Form) (st : State)
    (between : list Request) :
  fst (generate_itinerary W form st) = Ok (Redirect "dashboard") ->
  Forall (fun r => r <> ReqLogout /\ forall f, r <> ReqGenerateItinerary f)
    between ->
  let st1 := run W (snd (generate_itinerary W form st)) between in
  exists bundle,
    session (snd (generate_itinerary W form st)) !! "travel_data" = Some bundle /\
    fst (dashboard W st1)
    = Ok (Render "dashboard.html"
            [("now", datetime_now W (trace st1)); ("travel_data", bundle)]).
Proof.
  intros Hok Hbetween st1.
  destruct (generate_itinerary_stores_bundle W form st Hok)
    as [[bundle Hbundle] Hid].
  exists bundle. split; [exact Hbundle |].
  assert (session st1 !! "travel_data" = Some bundle /\
          is_Some (session st1 !! "user_id")) as [Htd [uid Huid]].
  { unfold st1. clear st1.
    generalize dependent (snd (generate_itinerary W form st)).
    induction Hbetween as [| r reqs [Hr1 Hr2] _ IH]; intros s Hb Hi; simpl.
    - auto.
    - apply IH.
      + rewrite handle_keeps_travel_data; assumption.
      + apply handle_keeps_logged_in; assumption. }
  unfold dashboard, get_session, now, mbind, M_bind, bind, ret. simpl.
  rewrite Huid, Htd. reflexivity.
Qed.

Lemma dashboard_shows_generated_bundle_witness :
  let st := mkState [] {["user_id" := PInt 1]} [] in
  let form := [("destination", "Paris"); ("startDate", "2025-06-01");
               ("endDate", "2025-06-03")] in
  let st1 := run quiet_world (snd (generate_itinerary quiet_world form st))
               [ReqHome; ReqGetWeather (Ok (PDict []))] in
  exists bundle,
    session (snd (generate_itinerary quiet_world form st)) !! "travel_data"
      = Some bundle /\
    fst (dashboard quiet_world st1)
    = Ok (Render "dashboard.html"
            [("now", datetime_now quiet_world (trace st1)); ("travel_data", bundle)]).
Proof.
  apply (dashboard_shows_generated_bundle quiet_world
    [("destination", "Paris"); ("startDate", "2025-06-01"); ("endDate", "2025-06-03")]
    (mkState [] {["user_id" := PInt 1]} [])
    [ReqHome; ReqGetWeather (Ok (PDict []))]).
  - reflexivity.
  - repeat constructor; try discriminate; intros f; discriminate.
Defined.

(** X13. [login] never touches the travel bundle: after a login that succeeds,
    [dashboard] renders the bundle the session held before that login (or
    the empty dictionary when it held none), whichever identity that bundle
    was generated under. *)
Theorem login_keeps_travel_data (W : World) (form : Form) (st : State) :
  fst (login W POST form st) = Ok (Redirect "dashboard") ->
  let st1 := snd (login W POST form st) in
  session st1 !! "travel_data" = session st !! "travel_data" /\
  fst (dashboard W st1)
  = Ok (Render "dashboard.html"
          [("now", datetime_now W (trace st1));
           ("travel_data", default (PDict []) (session st !! "travel_data"))]).
Proof.
  intros Hok st1.
  destruct (login_cases W POST form st)
    as [(u & pw & _ & _ & _ & _ & Hrun) | (Hbad & _)]; [| contradiction].
  unfold st1. rewrite Hrun. simpl.
  destruct (login_identity_lookup u (session st)) as (Hid & _ & Htd).
  split; [exact Htd |].
  unfold dashboard, get_session, now, mbind, M_bind, bind, ret. simpl.
  rewrite Hid, Htd. reflexivity.
Qed.

Lemma login_keeps_travel_data_witness :
  let st := with_session (insert "travel_data" (PStr "bundle of another user"))
              (run quiet_world st0
                 [ReqRegister POST [("name", "Ada"); ("email", "ada@example.org");
                                    ("password", "secret"); ("password2", "secret")]]) in
  let st1 := snd (login quiet_world POST
                    [("email", "ada@example.org"); ("password", "secret")] st) in
  session st1 !! "travel_data" = Some (PStr "bundle of another user").
Proof.
  destruct (login_keeps_travel_data quiet_world
    [("email", "ada@example.org"); ("password", "secret")]
    (with_session (insert "travel_data" (PStr "bundle of another user"))
       (run quiet_world st0
          [ReqRegister POST [("name", "Ada"); ("email", "ada@example.org");
                             ("password", "secret"); ("password2", "secret")]])))
    as (Htd & _); [reflexivity |].
  cbv zeta. etransitivity; [exact Htd | reflexivity].
Defined.

(** ** Edge cases of the JSON weather endpoint *)

(** X14. [get_weather] reads the city with [data.get]: a body that decodes to
    something other than a JSON object ([null], a list, a number, a string)
    makes the handler raise [AttributeError] instead of answering 400, and
    an exception raised while decoding the body leaves the handler as it
    is; in both cases no lookup is made and the state is as it was. *)
Theorem get_weather_body_not_object (W : World) (st : State) :
  (forall data,
     (forall items, data <> PDict items) ->
     get_weather W (Ok data) st = (Raise (AttributeError data "get"), st)) /\
  (forall e, get_weather W (Raise e) st = (Raise e, st)).
Proof.
  split.
  - intros data Hdata.
    destruct data; try reflexivity. destruct (Hdata items eq_refl).
  - reflexivity.
Qed.

Example get_weather_null_body :
  fst (get_weather sunny_world (Ok PNone) st0)
  = Raise (mkExn "AttributeError" "'NoneType' object has no attribute 'get'").
Proof. reflexivity. Qed.

(** ** Failed logins *)

(** X16. A login form carrying a password that is not answered with the
    redirect to the dashboard is answered in one way only: the login page
    again and the notice [Invalid email or password!], the same whether the
    email is unknown or the password does not verify; the table and the
    trace are untouched. *)
Theorem login_failure_uniform (W : World) (form : Form) (st : State)
    (pw : string) :
  form_get form "password" = Some pw ->
  fst (login W POST form st) <> Ok (Redirect "dashboard") ->
  login W POST form st
  = (Ok (Render "login.html" []),
     with_session
       (fun s => <["_flashes" :=
          PList (flashes_of s ++
                 [PList [PStr "danger"; PStr "Invalid email or password!"]])]> s)
       st).
Proof.
  intros Hpw Hbad.
  apply login_failure with (pw := pw); [exact Hpw |].
  intros u Hq.
  destruct (check_password_hash W (password u) pw) eqn:Hcheck; [| reflexivity].
  exfalso. apply Hbad.
  rewrite (login_success W form st pw u Hpw Hq Hcheck). reflexivity.
Qed.

Lemma login_failure_uniform_witness :
  let st := run quiet_world st0
              [ReqRegister POST [("name", "Ada"); ("email", "ada@example.org");
                                 ("password", "secret"); ("password2", "secret")]] in
  fst (login quiet_world POST
         [("email", "ada@example.org"); ("password", "wrong")] st)
  = fst (login quiet_world POST
           [("email", "nobody@example.org"); ("password", "wrong")] st).
Proof.
  cbv zeta.
  rewrite (login_failure_uniform quiet_world
             [("email", "ada@example.org"); ("password", "wrong")] _ "wrong");
    [| reflexivity | discriminate].
  rewrite (login_failure_uniform quiet_world
             [("email", "nobody@example.org"); ("password", "wrong")] _ "wrong");
    [| reflexivity | discriminate].
  reflexivity.
Defined.

(** ** Registration without a name *)

(** X17. [register] checks the passwords and the email but not the presence of
    a name: a form with equal passwords and a new email but no [name] field
    passes both checks and fails at the commit, on the column declared
    [nullable=False].  The request ends in an [IntegrityError] instead of a
    notice, and no row is stored. *)
Theorem register_missing_name (W : World) (form : Form) (st : State)
    (e pw : string) :
  form_get form "name" = None ->
  form_get form "email" = Some e ->
  form_get form "password" = Some pw ->
  form_get form "password2" = Some pw ->
  query_first_by_email (db st) (Some e) = None ->
  (exists exn, fst (register W POST form st) = Raise exn /\
               exn_class exn = "IntegrityError") /\
  db (snd (register W POST form st)) = db st /\
  session (snd (register W POST form st)) = session st.
Proof.
  intros Hn He Hpw Hpw2 Hq. unfold register.
  rewrite Hn, He, Hpw, Hpw2.
  rewrite bool_decide_eq_true_2 by reflexivity. simpl.
  unfold hash_password, get_db, db_add_user, flash, mbind, M_bind, bind, ret, raise.
  simpl. simpl in Hq. rewrite Hq. simpl. eauto.
Qed.

Lemma register_missing_name_witness :
  let form := [("email", "ada@example.org");
               ("password", "secret"); ("password2", "secret")] in
  (exists exn, fst (register quiet_world POST form st0) = Raise exn /\
               exn_class exn = "IntegrityError") /\
  db (snd (register quiet_world POST form st0)) = db st0 /\
  session (snd (register quiet_world POST form st0)) = session st0.
Proof.
  apply (register_missing_name quiet_world
           [("email", "ada@example.org");
            ("password", "secret"); ("password2", "secret")]
           st0 "ada@example.org" "secret"); reflexivity.
Defined.
